(** * Entitlements generation of the universal-links plugin

    A shallow embedding of [hooks/lib/ios/projectEntitlements.js]: the hook that
    writes the [Entitlements-Debug.plist] and [Entitlements-Release.plist] files
    of an iOS project from the hosts declared in [config.xml].

    The JavaScript module keeps five module-level variables, reads and writes
    files, and lets exceptions escape.  It is embedded as a state-and-exception
    monad over the module variables and a file system; the pure helpers
    ([injectPreferences], [generateAssociatedDomainsContent],
    [domainsListEntryForHost]) are plain functions. *)

From Stdlib Require Import ZArith Ascii String.
From stdpp Require Import base strings list gmap pretty.

Local Open Scope string_scope.
Local Open Scope list_scope.
#[local] Set Warnings "-register-all".

(** ** Data model *)

(** Values of a property list, as [plist.parse] produces them and
    [plist.build] consumes them. *)
Inductive plist_value : Type :=
| PString (s : string)
| PInteger (z : Z)
| PBool (b : bool)
| PArray (items : list plist_value)
| PDict (entries : list (string * plist_value)).

(** An entitlements document is a JavaScript object: its own properties in
    insertion order, one entry per key. *)
Abbreviation Entitlements := (list (string * plist_value)).

(** [obj[key]]: the value of the first (only) entry for [key]. *)
Fixpoint js_get (key : string) (obj : Entitlements) : option plist_value :=
  match obj with
  | [] => None
  | (k, v) :: rest => if decide (k = key) then Some v else js_get key rest
  end.

(** [obj[key] = value]: an existing property keeps its place and takes the new
    value, a new property is added after the others. *)
Fixpoint js_set (key : string) (value : plist_value) (obj : Entitlements)
  : Entitlements :=
  match obj with
  | [] => [(key, value)]
  | (k, v) :: rest =>
      if decide (k = key) then (k, value) :: rest
      else (k, v) :: js_set key value rest
  end.

(** [Object.keys(obj)]. *)
Definition js_keys (obj : Entitlements) : list string := obj.*1.

(** A host entry of [config.xml]; only its [name] is read here. *)
Record Host : Type := { name : string }.

(** The parsed plugin preferences; only [hosts] is read here. *)
Record PluginPreferences : Type := { hosts : list Host }.

(** The cordova context, as far as this module looks into it. *)
Record Context : Type := {
  opts_projectRoot : string;   (* context.opts.projectRoot *)
  config_name : string         (* the <name> of the project's config.xml *)
}.

(** ** Array helpers of the JavaScript runtime *)

Fixpoint indexOf_from (i : Z) (arr : list string) (x : string) : Z :=
  match arr with
  | [] => (-1)%Z
  | y :: rest => if decide (y = x) then i else indexOf_from (i + 1)%Z rest x
  end.

(** [arr.indexOf(x)]: the first index holding a string equal to [x], or -1. *)
Definition indexOf (arr : list string) (x : string) : Z := indexOf_from 0 arr x.

(** [arr.push(x)]. *)
Definition push (arr : list string) (x : string) : list string := arr ++ [x].

(** ** The associated-domains list *)

Definition ASSOCIATED_DOMAINS : string := "com.apple.developer.associated-domains".

(** [domainsListEntryForHost]. *)
Definition domainsListEntryForHost (host : Host) : string :=
  "applinks:" +:+ name host.

(** The body of the [forEach] callback of [generateAssociatedDomainsContent],
    with the array it closes over made explicit. *)
Definition add_host_link (domainsList : list string) (host : Host) : list string :=
  let link := domainsListEntryForHost host in
  if (indexOf domainsList link =? -1)%Z then push domainsList link
  else domainsList.

(** [generateAssociatedDomainsContent]. *)
Definition generateAssociatedDomainsContent (pluginPreferences : PluginPreferences)
  : list string :=
  fold_left add_host_link (hosts pluginPreferences) [].

(** The array of strings as the property-list value stored in the document. *)
Definition domains_value (domainsList : list string) : plist_value :=
  PArray (PString <$> domainsList).

(** [injectPreferences], for [currentEntitlements] an object.  The source
    updates [currentEntitlements] in place and returns the same object; no
    caller looks at the argument afterwards, so the update is modelled by the
    returned document. *)
Definition injectPreferences (currentEntitlements : Entitlements)
    (pluginPreferences : PluginPreferences) : Entitlements :=
  let content := generateAssociatedDomainsContent pluginPreferences in
  js_set ASSOCIATED_DOMAINS (domains_value content) currentEntitlements.

(** [defaultEntitlementsFile]: a fresh empty object on every call. *)
Definition defaultEntitlementsFile : Entitlements := [].

(** [injectPreferences], for whatever value [plist.parse] has returned.  The
    assignment [newEntitlements[ASSOCIATED_DOMAINS] = content] shows on an
    object only: on a string, a number or a boolean it has no effect (the
    module is not in strict mode), and an array takes the property beside its
    elements, where neither [plist.build] nor the hook looks. *)
Definition injectPreferences_value (currentEntitlements : plist_value)
    (pluginPreferences : PluginPreferences) : plist_value :=
  match currentEntitlements with
  | PDict entries => PDict (injectPreferences entries pluginPreferences)
  | other => other
  end.

(** *** The list the specification describes *)

(** Keep the first occurrence of every string and drop the later ones. *)
Fixpoint first_occurrences (l : list string) : list string :=
  match l with
  | [] => []
  | x :: rest => x :: filter (λ y, y ≠ x) (first_occurrences rest)
  end.

(** ['applinks:' ++ name] for each host, de-duplicated on the computed entry,
    in first-occurrence order. *)
Definition associated_domains_of (H : list Host) : list string :=
  first_occurrences ((λ h, "applinks:" +:+ name h) <$> H).

(** ** Exceptions and the state of the running process *)

(** What a call can throw. *)
Inductive js_error : Type :=
| FsError (code : string) (path : string)   (* thrown by [fs] and [mkpath] *)
| PlistError (content : string)             (* thrown by [plist.parse] *)
| TypeError (what : string).                (* a property read of [undefined] *)

Inductive outcome (A : Type) : Type :=
| Returned (a : A)
| Thrown (e : js_error).
Arguments Returned {A} a.
Arguments Thrown {A} e.

(** The file system the hook runs against, as far as the hook can tell.  The
    three sets collect the paths on which the operating system refuses a
    call of [fs.readFileSync], of [mkpath.sync] and of [fs.writeFileSync]
    (permissions, a read-only volume, a file where a directory is needed);
    the three are independent, and a refused call throws and changes
    nothing. *)
Record FileSystem : Type := {
  files : gmap string string;   (* regular files and their utf8 content *)
  dirs : gset string;           (* directories *)
  refused_read : gset string;
  refused_mkdir : gset string;
  refused_write : gset string
}.
(** The module-level variables; [None] is [undefined]. *)
Record ModuleVars : Type := {
  context : option Context;
  projectRoot : option string;               (* declared, never assigned *)
  projectName : option string;
  debugEntitlementsFilePath : option string;
  releaseEntitlementsFilePath : option string
}.

(** The variables of a freshly loaded module. *)
Definition fresh_vars : ModuleVars :=
  {| context := None; projectRoot := None; projectName := None;
     debugEntitlementsFilePath := None; releaseEntitlementsFilePath := None |}.

Record State : Type := { vars : ModuleVars; disk : FileSystem }.

(** Computations that read and write the state and may throw; the state
    reached when an exception is thrown is kept, as nothing is rolled back. *)
Definition M (A : Type) : Type := State → outcome A * State.

#[global] Instance M_ret : MRet M := λ A a st, (Returned a, st).
#[global] Instance M_bind : MBind M := λ A B f m st,
  match m st with
  | (Returned a, st') => f a st'
  | (Thrown e, st') => (Thrown e, st')
  end.

Definition throw {A : Type} (e : js_error) : M A := λ st, (Thrown e, st).

(** [try { m } catch (err) { ... }]: the exception of [m], if any, is handed to
    the continuation as a value. *)
Definition js_try {A : Type} (m : M A) : M (outcome A) := λ st,
  let (r, st') := m st in (Returned r, st').

Definition get_vars : M ModuleVars := λ st, (Returned (vars st), st).
Definition put_vars (v : ModuleVars) : M unit := λ st,
  (Returned tt, {| vars := v; disk := disk st |}).

(** Assignments to the module variables. *)
Definition set_context (c : Context) (v : ModuleVars) : ModuleVars :=
  {| context := Some c; projectRoot := projectRoot v;
     projectName := projectName v;
     debugEntitlementsFilePath := debugEntitlementsFilePath v;
     releaseEntitlementsFilePath := releaseEntitlementsFilePath v |}.

Definition set_projectName (n : string) (v : ModuleVars) : ModuleVars :=
  {| context := context v; projectRoot := projectRoot v;
     projectName := Some n;
     debugEntitlementsFilePath := debugEntitlementsFilePath v;
     releaseEntitlementsFilePath := releaseEntitlementsFilePath v |}.

Definition set_debugEntitlementsFilePath (p : string) (v : ModuleVars) : ModuleVars :=
  {| context := context v; projectRoot := projectRoot v;
     projectName := projectName v;
     debugEntitlementsFilePath := Some p;
     releaseEntitlementsFilePath := releaseEntitlementsFilePath v |}.

Definition set_releaseEntitlementsFilePath (p : string) (v : ModuleVars) : ModuleVars :=
  {| context := context v; projectRoot := projectRoot v;
     projectName := projectName v;
     debugEntitlementsFilePath := debugEntitlementsFilePath v;
     releaseEntitlementsFilePath := Some p |}.

Definition assign (f : ModuleVars → ModuleVars) : M unit :=
  v ← get_vars; put_vars (f v).

(** ** The modules the hook requires *)

(** The [plist] package.  [plist_parse] is [None] where [plist.parse] throws,
    and else the top-level value of the property list, a dictionary or not.
    [plist.build] throws on text that XML cannot hold; host names are domain
    names, and such documents are left out. *)
Record PlistModule : Type := {
  plist_parse : string → option plist_value;
  plist_build : plist_value → string
}.

(** Node's [path] module. *)
Record PathModule : Type := {
  path_join : list string → string;
  path_dirname : string → string
}.

(** Modelled from the spec: [ConfigXmlHelper.getProjectName] of
    [hooks/lib/configXmlHelper.js], which resolves the project name from the
    project configuration of the context it was constructed with. *)
Definition ConfigXmlHelper_getProjectName (ctx : option Context) : M string :=
  match ctx with
  | Some c => mret (config_name c)
  | None => throw (TypeError "context")
  end.

(** *** [fs] and [mkpath] *)

(** The file system with one file set. *)
Definition put_file (p content : string) (fs : FileSystem) : FileSystem :=
  {| files := <[ p := content ]> (files fs); dirs := dirs fs;
     refused_read := refused_read fs; refused_mkdir := refused_mkdir fs;
     refused_write := refused_write fs |}.

(** [fs.readFileSync(p, 'utf8')]. *)
Definition fs_readFile (p : string) (fs : FileSystem) : outcome string :=
  if decide (p ∈ refused_read fs) then Thrown (FsError "EACCES" p)
  else match files fs !! p with
       | Some content => Returned content
       | None => Thrown (FsError "ENOENT" p)
       end.

(** [fs.writeFileSync(p, content, 'utf8')]: the file is created or replaced;
    the directory [parent] that holds it has to exist. *)
Definition fs_writeFile (parent p content : string) (fs : FileSystem)
  : outcome unit * FileSystem :=
  if decide (p ∈ refused_write fs) then (Thrown (FsError "EACCES" p), fs)
  else if decide (parent ∈ dirs fs) then (Returned tt, put_file p content fs)
  else (Thrown (FsError "ENOENT" p), fs).

(** A file-system operation as a computation of the hook. *)
Definition on_disk {A : Type} (op : FileSystem → outcome A * FileSystem) : M A :=
  λ st, let (r, fs) := op (disk st) in (r, {| vars := vars st; disk := fs |}).

Section Hook.

Variable plist : PlistModule.
Variable path : PathModule.

(** The directories after [mkpath.sync(dir)] went through: a directory that
    exists is left alone; a missing one is made after its parent has been
    seen to in the same way.  [fuel] bounds the way up, which ends at a
    directory that exists. *)
Fixpoint make_dirs (fuel : nat) (dir : string) (existing : gset string)
  : gset string :=
  if decide (dir ∈ existing) then existing
  else match fuel with
       | O => {[ dir ]} ∪ existing
       | S fuel' => {[ dir ]} ∪ make_dirs fuel' (path_dirname path dir) existing
       end.

Definition add_dir (dir : string) (fs : FileSystem) : FileSystem :=
  {| files := files fs; dirs := make_dirs (String.length dir) dir (dirs fs);
     refused_read := refused_read fs; refused_mkdir := refused_mkdir fs;
     refused_write := refused_write fs |}.

(** [mkpath.sync(dir)]: the directory and its ancestors exist afterwards. *)
Definition fs_mkpath (dir : string) (fs : FileSystem) : outcome unit * FileSystem :=
  if decide (dir ∈ refused_mkdir fs) then (Thrown (FsError "EACCES" dir), fs)
  else (Returned tt, add_dir dir fs).

Definition readFileSync (p : string) : M string :=
  on_disk (λ fs, (fs_readFile p fs, fs)).

Definition mkpath_sync (dir : string) : M unit := on_disk (fs_mkpath dir).

Definition writeFileSync (p content : string) : M unit :=
  on_disk (fs_writeFile (path_dirname path p) p content).

(** [plist.parse(content)]. *)
Definition plist_parse_call (content : string) : M plist_value :=
  match plist_parse plist content with
  | Some document => mret document
  | None => throw (PlistError content)
  end.

(** *** Path helper methods *)

(** [getProjectRoot]. *)
Definition getProjectRoot : M string :=
  v ← get_vars;
  match context v with
  | Some c => mret (opts_projectRoot c)
  | None => throw (TypeError "context.opts")
  end.

(** [getProjectName]. *)
Definition getProjectName : M string :=
  v ← get_vars;
  match projectName v with
  | Some cached => mret cached
  | None =>
      n ← ConfigXmlHelper_getProjectName (context v);
      assign (set_projectName n);;
      mret n
  end.

(** [pathToDebugEntitlementsFile]. *)
Definition pathToDebugEntitlementsFile : M string :=
  v ← get_vars;
  match debugEntitlementsFilePath v with
  | Some cached => mret cached
  | None =>
      root ← getProjectRoot;
      n ← getProjectName;
      let p := path_join path [root; "platforms"; "ios"; n; "Entitlements-Debug.plist"] in
      assign (set_debugEntitlementsFilePath p);;
      mret p
  end.

(** [pathToReleaseEntitlementsFile]. *)
Definition pathToReleaseEntitlementsFile : M string :=
  v ← get_vars;
  match releaseEntitlementsFilePath v with
  | Some cached => mret cached
  | None =>
      root ← getProjectRoot;
      n ← getProjectName;
      let p := path_join path [root; "platforms"; "ios"; n; "Entitlements-Release.plist"] in
      assign (set_releaseEntitlementsFilePath p);;
      mret p
  end.

(** *** Work with entitlements file *)

(** [getDebugEntitlementsFileContent]. *)
Definition getDebugEntitlementsFileContent : M plist_value :=
  pathToFile ← pathToDebugEntitlementsFile;
  read ← js_try (readFileSync pathToFile);
  match read with
  | Thrown err => mret (PDict defaultEntitlementsFile)
  | Returned content => plist_parse_call content
  end.

(** [getReleaseEntitlementsFileContent]. *)
Definition getReleaseEntitlementsFileContent : M plist_value :=
  pathToFile ← pathToReleaseEntitlementsFile;
  read ← js_try (readFileSync pathToFile);
  match read with
  | Thrown err => mret (PDict defaultEntitlementsFile)
  | Returned content => plist_parse_call content
  end.

(** [saveContentToEntitlementsFile]. *)
Definition saveContentToEntitlementsFile (debugContent releaseContent : plist_value)
  : M unit :=
  let debugPlistContent := plist_build plist debugContent in
  let releasePlistContent := plist_build plist releaseContent in
  debugFilePath ← pathToDebugEntitlementsFile;
  releaseFilePath ← pathToReleaseEntitlementsFile;
  mkpath_sync (path_dirname path debugFilePath);;
  mkpath_sync (path_dirname path releaseFilePath);;
  writeFileSync debugFilePath debugPlistContent;;
  writeFileSync releaseFilePath releasePlistContent.

(** *** Public API *)

(** [generateEntitlements], exported as
    [generateAssociatedDomainsEntitlements]. *)
Definition generateEntitlements (cordovaContext : Context)
    (pluginPreferences : PluginPreferences) : M unit :=
  assign (set_context cordovaContext);;
  currentDebugEntitlements ← getDebugEntitlementsFileContent;
  currentReleaseEntitlements ← getReleaseEntitlementsFileContent;
  let newDebugEntitlements :=
    injectPreferences_value currentDebugEntitlements pluginPreferences in
  let newReleaseEntitlements :=
    injectPreferences_value currentReleaseEntitlements pluginPreferences in
  saveContentToEntitlementsFile newDebugEntitlements newReleaseEntitlements.

(** *** What a run resolves, reads and writes

    The quantities the statements below speak about, read off the state in
    which [generateEntitlements] runs. *)

(** The project name a lookup yields: the cached one when there is one. *)
Definition name_of (v : ModuleVars) (ctx : Context) : string :=
  match projectName v with Some n => n | None => config_name ctx end.

Definition cache_name (v : ModuleVars) (ctx : Context) : ModuleVars :=
  match projectName v with
  | Some _ => v
  | None => set_projectName (config_name ctx) v
  end.

(** The path a lookup of the debug file yields when the context is [ctx]. *)
Definition debug_path (v : ModuleVars) (ctx : Context) : string :=
  match debugEntitlementsFilePath v with
  | Some p => p
  | None => path_join path [opts_projectRoot ctx; "platforms"; "ios";
                            name_of v ctx; "Entitlements-Debug.plist"]
  end.

Definition release_path (v : ModuleVars) (ctx : Context) : string :=
  match releaseEntitlementsFilePath v with
  | Some p => p
  | None => path_join path [opts_projectRoot ctx; "platforms"; "ios";
                            name_of v ctx; "Entitlements-Release.plist"]
  end.

(** The module variables after such a lookup. *)
Definition cache_debug (v : ModuleVars) (ctx : Context) : ModuleVars :=
  match debugEntitlementsFilePath v with
  | Some _ => v
  | None => set_debugEntitlementsFilePath (debug_path v ctx) (cache_name v ctx)
  end.

Definition cache_release (v : ModuleVars) (ctx : Context) : ModuleVars :=
  match releaseEntitlementsFilePath v with
  | Some _ => v
  | None => set_releaseEntitlementsFilePath (release_path v ctx) (cache_name v ctx)
  end.

(** The module variables once both paths have been looked up under [ctx]. *)
Definition settled (v : ModuleVars) (ctx : Context) : ModuleVars :=
  cache_release (cache_debug (set_context ctx v) ctx) ctx.

(** The starting document the read step obtains from the file at [p]. *)
Definition document_at (fs : FileSystem) (p : string) : outcome plist_value :=
  match fs_readFile p fs with
  | Thrown _ => Returned (PDict defaultEntitlementsFile)
  | Returned content =>
      match plist_parse plist content with
      | Some document => Returned document
      | None => Thrown (PlistError content)
      end
  end.

(** The four file-system calls of [saveContentToEntitlementsFile], in order. *)
Definition save_files (pd pr cd cr : string) (fs : FileSystem)
  : outcome unit * FileSystem :=
  match fs_mkpath (path_dirname path pd) fs with
  | (Thrown e, fs1) => (Thrown e, fs1)
  | (Returned _, fs1) =>
    match fs_mkpath (path_dirname path pr) fs1 with
    | (Thrown e, fs2) => (Thrown e, fs2)
    | (Returned _, fs2) =>
      match fs_writeFile (path_dirname path pd) pd cd fs2 with
      | (Thrown e, fs3) => (Thrown e, fs3)
      | (Returned _, fs3) => fs_writeFile (path_dirname path pr) pr cr fs3
      end
    end
  end.

(** What a run does to the file system, given the two paths it resolved. *)
Definition disk_run (pd pr : string) (pluginPreferences : PluginPreferences)
    (fs : FileSystem) : outcome unit * FileSystem :=
  match document_at fs pd with
  | Thrown e => (Thrown e, fs)
  | Returned currentDebug =>
      match document_at fs pr with
      | Thrown e => (Thrown e, fs)
      | Returned currentRelease =>
          save_files pd pr
            (plist_build plist (injectPreferences_value currentDebug pluginPreferences))
            (plist_build plist (injectPreferences_value currentRelease pluginPreferences))
            fs
      end
  end.

(** The file system refuses none of the four calls of the save step. *)
Definition permits (fs : FileSystem) (pd pr : string) : Prop :=
  (path_dirname path pd ∉ refused_mkdir fs)
  ∧ (path_dirname path pr ∉ refused_mkdir fs)
  ∧ (pd ∉ refused_write fs)
  ∧ (pr ∉ refused_write fs).

(** The content of the file at [p], if there is such a file. *)
Definition file_content (fs : FileSystem) (p : string) : option string :=
  files fs !! p.

(** What reading the file at [p] gives: its content, or nothing when the
    call throws. *)
Definition read_content (fs : FileSystem) (p : string) : option string :=
  match fs_readFile p fs with
  | Returned content => Some content
  | Thrown _ => None
  end.

(** [plist.parse] gives back the document [plist.build] was given. *)
Definition round_trips (document : plist_value) : Prop :=
  plist_parse plist (plist_build plist document) = Some document.

End Hook.

(** ** Stand-ins for the required modules, for the examples *)

Module Sample.

(** POSIX [path.join] on segments that need no normalisation. *)
Fixpoint join (segments : list string) : string :=
  match segments with
  | [] => "."
  | [s] => s
  | s :: rest => s +:+ "/" +:+ join rest
  end.

(** The text before the last ["/"], if there is a ["/"]. *)
Fixpoint before_last_slash (p : string) : option string :=
  match p with
  | EmptyString => None
  | String c rest =>
      match before_last_slash rest with
      | Some d => Some (String c d)
      | None => if decide (c = "/"%char) then Some EmptyString else None
      end
  end.

Definition dirname (p : string) : string :=
  match before_last_slash p with
  | Some EmptyString => "/"
  | Some d => d
  | None => "."
  end.

Definition path : PathModule := {| path_join := join; path_dirname := dirname |}.

(** [String(n)] of JavaScript for a whole number [n]: decimal digits below
    [10^21], exponent notation from there on.  Exact for the numbers a double
    holds exactly and writes with their own digits, as it does [10^21]. *)
Fixpoint strip_trailing_zeros (s : string) : string :=
  match s with
  | EmptyString => EmptyString
  | String c rest =>
      match strip_trailing_zeros rest with
      | EmptyString => if decide (c = "0"%char) then EmptyString else String c EmptyString
      | rest' => String c rest'
      end
  end.

Definition exponent_text (digits : string) : string :=
  let exponent := pretty (String.length digits - 1)%nat in
  match strip_trailing_zeros digits with
  | EmptyString => "0"
  | String c EmptyString => String c "e+" +:+ exponent
  | String c rest => String c ("." +:+ rest) +:+ "e+" +:+ exponent
  end.

Definition number_text (z : Z) : string :=
  let digits := pretty (Z.to_N (Z.abs z)) in
  let body := if (Z.abs z <? 10 ^ 21)%Z then digits else exponent_text digits in
  if (z <? 0)%Z then "-" +:+ body else body.

(** [parseInt(s, 10)] of JavaScript: the digits [s] starts with, after a sign
    if there is one; [None] where it answers [NaN]. *)
Definition digit_of (c : ascii) : option N :=
  let n := N_of_ascii c in
  if ((48 <=? n) && (n <=? 57))%N then Some (n - 48)%N else None.

Fixpoint leading_digits (s : string) (acc : option N) : option N :=
  match s with
  | EmptyString => acc
  | String c rest =>
      match digit_of c with
      | Some d => leading_digits rest (Some (10 * default 0 acc + d)%N)
      | None => acc
      end
  end.

Definition parseInt (s : string) : option Z :=
  match s with
  | String "-" rest => n ← leading_digits rest None; Some (- Z.of_N n)%Z
  | String "+" rest => n ← leading_digits rest None; Some (Z.of_N n)
  | _ => n ← leading_digits s None; Some (Z.of_N n)
  end.

(** A serialiser for the XML of a property list, without the XML prologue and
    without escaping. *)
Fixpoint build_value (v : plist_value) : string :=
  match v with
  | PString s => "<string>" +:+ s +:+ "</string>"
  | PInteger z => "<integer>" +:+ number_text z +:+ "</integer>"
  | PBool true => "<true/>"
  | PBool false => "<false/>"
  | PArray items =>
      "<array>"
      +:+ (fix go (l : list plist_value) : string :=
             match l with [] => EmptyString | x :: r => build_value x +:+ go r end) items
      +:+ "</array>"
  | PDict entries =>
      "<dict>"
      +:+ (fix go (l : list (string * plist_value)) : string :=
             match l with
             | [] => EmptyString
             | (k, x) :: r => "<key>" +:+ k +:+ "</key>" +:+ build_value x +:+ go r
             end) entries
      +:+ "</dict>"
  end.

Definition build_root (root : plist_value) : string :=
  "<plist>" +:+ build_value root +:+ "</plist>".

Definition build (document : Entitlements) : string := build_root (PDict document).

(** A parser for the property lists whose top-level value is a string, a whole
    number, an array of strings, or a dictionary of such values; everything
    else is rejected. *)
Fixpoint strip_prefix (pre s : string) : option string :=
  match pre, s with
  | EmptyString, _ => Some s
  | String a pre', String b s' =>
      if decide (a = b) then strip_prefix pre' s' else None
  | String _ _, EmptyString => None
  end.

(** The text up to the next tag, and the rest. *)
Fixpoint take_text (s : string) : string * string :=
  match s with
  | EmptyString => (EmptyString, EmptyString)
  | String c rest =>
      if decide (c = "<"%char) then (EmptyString, s)
      else let (t, r) := take_text rest in (String c t, r)
  end.

Definition parse_string (s : string) : option (string * string) :=
  r ← strip_prefix "<string>" s;
  let (t, r1) := take_text r in
  r2 ← strip_prefix "</string>" r1;
  Some (t, r2).

Fixpoint parse_strings (fuel : nat) (s : string) : list plist_value * string :=
  match fuel with
  | O => ([], s)
  | S fuel' =>
      match parse_string s with
      | Some (t, r) => let (l, r') := parse_strings fuel' r in (PString t :: l, r')
      | None => ([], s)
      end
  end.

Definition parse_integer (s : string) : option (plist_value * string) :=
  r ← strip_prefix "<integer>" s;
  let (t, r1) := take_text r in
  r2 ← strip_prefix "</integer>" r1;
  z ← parseInt t;
  Some (PInteger z, r2).

Definition parse_value (s : string) : option (plist_value * string) :=
  match parse_string s with
  | Some (t, r) => Some (PString t, r)
  | None =>
      match parse_integer s with
      | Some found => Some found
      | None =>
          r ← strip_prefix "<array>" s;
          let (l, r1) := parse_strings (String.length r) r in
          r2 ← strip_prefix "</array>" r1;
          Some (PArray l, r2)
      end
  end.

Fixpoint parse_entries (fuel : nat) (acc : Entitlements) (s : string)
  : option (Entitlements * string) :=
  match fuel with
  | O => Some (acc, s)
  | S fuel' =>
      match strip_prefix "<key>" s with
      | None => Some (acc, s)
      | Some r =>
          let (k, r1) := take_text r in
          r2 ← strip_prefix "</key>" r1;
          '(v, r3) ← parse_value r2;
          parse_entries fuel' (js_set k v acc) r3
      end
  end.

Definition parse_dict (s : string) : option (plist_value * string) :=
  r ← strip_prefix "<dict>" s;
  '(document, r1) ← parse_entries (String.length r) [] r;
  r2 ← strip_prefix "</dict>" r1;
  Some (PDict document, r2).

Definition parse (s : string) : option plist_value :=
  r ← strip_prefix "<plist>" s;
  '(root, r1) ← match parse_dict r with
                | Some found => Some found
                | None => parse_value r
                end;
  r2 ← strip_prefix "</plist>" r1;
  if decide (r2 = EmptyString) then Some root else None.

Definition plist : PlistModule := {| plist_parse := parse; plist_build := build_root |}.

(** A project at [/app] named [Demo]. *)
Definition ctx : Context := {| opts_projectRoot := "/app"; config_name := "Demo" |}.

Definition debugFile : string := "/app/platforms/ios/Demo/Entitlements-Debug.plist".
Definition releaseFile : string := "/app/platforms/ios/Demo/Entitlements-Release.plist".

Definition prefs : PluginPreferences :=
  {| hosts := [ {| name := "a.com" |}; {| name := "b.com" |}; {| name := "a.com" |} ] |}.

(** A disk with the given files, the project directory, and no refusals. *)
Definition disk_with (content : gmap string string) : FileSystem :=
  {| files := content; dirs := {[ "/app/platforms/ios/Demo" ]};
     refused_read := ∅; refused_mkdir := ∅; refused_write := ∅ |}.

Definition empty_disk : FileSystem :=
  {| files := ∅; dirs := ∅;
     refused_read := ∅; refused_mkdir := ∅; refused_write := ∅ |}.

Definition fresh : State := {| vars := fresh_vars; disk := empty_disk |}.

(** The debug file holds text that is no property list. *)
Definition malformed : State :=
  {| vars := fresh_vars;
     disk := disk_with {[ debugFile := "not a property list" ]} |}.

(** The release file cannot be read or written. *)
Definition locked : State :=
  {| vars := fresh_vars;
     disk := {| files := ∅; dirs := ∅;
                refused_read := {[ releaseFile ]}; refused_mkdir := ∅;
                refused_write := {[ releaseFile ]} |} |}.

(** A document with a key of its own and an older list of domains. *)
Definition older : Entitlements :=
  [("other-key", PString "value");
   (ASSOCIATED_DOMAINS, PArray [PString "applinks:old.com"])].

(** The debug file holds [older]. *)
Definition existing : State :=
  {| vars := fresh_vars; disk := disk_with {[ debugFile := build older ]} |}.

(** Both files hold [older]. *)
Definition both_existing : State :=
  {| vars := fresh_vars;
     disk := disk_with {[ debugFile := build older; releaseFile := build older ]} |}.

(** Both files hold [older]; the debug file can be written but not read. *)
Definition unreadable_debug : State :=
  {| vars := fresh_vars;
     disk := {| files := {[ debugFile := build older; releaseFile := build older ]};
                dirs := {[ "/app/platforms/ios/Demo" ]};
                refused_read := {[ debugFile ]}; refused_mkdir := ∅;
                refused_write := ∅ |} |}.

(** The debug file holds a dictionary with the number [10^21]. *)
Definition big_number_text : string :=
  "<plist><dict><key>build</key><integer>1000000000000000000000</integer></dict></plist>".

Definition big_number : State :=
  {| vars := fresh_vars; disk := disk_with {[ debugFile := big_number_text ]} |}.

(** The debug file holds a property list whose top-level value is a string. *)
Definition string_root : State :=
  {| vars := fresh_vars;
     disk := disk_with {[ debugFile := "<plist><string>hello</string></plist>" ]} |}.

(** A second project, at [/other] and named [Other]. *)
Definition ctx2 : Context := {| opts_projectRoot := "/other"; config_name := "Other" |}.

Definition prefs2 : PluginPreferences := {| hosts := [ {| name := "c.com" |} ] |}.

Definition debugFile2 : string := "/other/platforms/ios/Other/Entitlements-Debug.plist".

(** The state after a first run for [ctx], and after a second one for [ctx2]. *)
Definition after_first : State := (generateEntitlements plist path ctx prefs fresh).2.

Definition after_second : State :=
  (generateEntitlements plist path ctx2 prefs2 after_first).2.

(** The module variables a run for [ctx2] leaves in a fresh module. *)
Definition cached_other : ModuleVars :=
  vars (generateEntitlements plist path ctx2 prefs2 fresh).2.

(** A disk that holds an unrelated file only. *)
Definition elsewhere : FileSystem :=
  {| files := {[ "/tmp/notes.txt" := "hello" ]}; dirs := {[ "/tmp" ]};
     refused_read := ∅; refused_mkdir := ∅; refused_write := ∅ |}.

End Sample.

Example dedup_three :
  generateAssociatedDomainsContent Sample.prefs = ["applinks:a.com"; "applinks:b.com"].
Proof. reflexivity. Qed.

Example sample_join :
  Sample.join ["/app"; "platforms"; "ios"; "Demo"; "Entitlements-Debug.plist"]
  = Sample.debugFile.
Proof. reflexivity. Qed.

Example sample_dirname : Sample.dirname Sample.debugFile = "/app/platforms/ios/Demo".
Proof. reflexivity. Qed.

Example sample_build :
  Sample.build (injectPreferences [] Sample.prefs)
  = "<plist><dict><key>com.apple.developer.associated-domains</key><array><string>applinks:a.com</string><string>applinks:b.com</string></array></dict></plist>".
Proof. reflexivity. Qed.

Example sample_parse_build :
  Sample.parse (Sample.build (injectPreferences [("other-key", PString "value")] Sample.prefs))
  = Some (PDict (injectPreferences [("other-key", PString "value")] Sample.prefs)).
Proof. vm_compute. reflexivity. Qed.

Example sample_parse_garbage : Sample.parse "not a property list" = None.
Proof. reflexivity. Qed.

Example sample_parse_string_root :
  Sample.parse "<plist><string>hello</string></plist>" = Some (PString "hello").
Proof. vm_compute. reflexivity. Qed.

Example sample_number_text :
  Sample.number_text 42 = "42"
  ∧ Sample.number_text (10 ^ 21) = "1e+21"
  ∧ Sample.number_text 123456789012345680000000000000 = "1.2345678901234568e+29".
Proof. repeat split; vm_compute; reflexivity. Qed.

Example sample_parseInt :
  Sample.parseInt "1000000000000000000000" = Some (10 ^ 21)%Z
  ∧ Sample.parseInt "1e+21" = Some 1%Z
  ∧ Sample.parseInt "-12px" = Some (-12)%Z
  ∧ Sample.parseInt "px" = None.
Proof. repeat split; vm_compute; reflexivity. Qed.

Example sample_mkpath :
  dirs (add_dir Sample.path "/app/platforms/ios/Demo" Sample.empty_disk)
  = {[ "/app/platforms/ios/Demo"; "/app/platforms/ios"; "/app/platforms"; "/app"; "/" ]}.
Proof. vm_compute. reflexivity. Qed.

Example sample_run :
  file_content
    (disk (generateEntitlements Sample.plist Sample.path Sample.ctx Sample.prefs Sample.fresh).2)
    Sample.debugFile
  = Some (Sample.build (injectPreferences [] Sample.prefs)).
Proof. vm_compute. reflexivity. Qed.

(** * Properties *)

(** ** JavaScript objects *)

Lemma js_get_set_eq key value (obj : Entitlements) :
  js_get key (js_set key value obj) = Some value.
Proof.
  induction obj as [|[k v] rest IH]; simpl.
  - by rewrite decide_True.
  - destruct (decide (k = key)) as [->|Hne]; simpl.
    + by rewrite decide_True.
    + by rewrite decide_False.
Qed.

Lemma js_get_set_ne key key' value (obj : Entitlements) :
  key' ≠ key → js_get key' (js_set key value obj) = js_get key' obj.
Proof.
  intros Hne. induction obj as [|[k v] rest IH]; simpl.
  - by rewrite decide_False.
  - destruct (decide (k = key)) as [->|Hk]; simpl.
    + by rewrite !decide_False.
    + by rewrite IH.
Qed.

Lemma js_set_set key v1 v2 (obj : Entitlements) :
  js_set key v2 (js_set key v1 obj) = js_set key v2 obj.
Proof.
  induction obj as [|[k v] rest IH]; simpl.
  - by rewrite decide_True.
  - destruct (decide (k = key)) as [->|Hk]; simpl.
    + by rewrite decide_True.
    + by rewrite decide_False, IH.
Qed.

(** The entries of the other keys stay as they are, in the order they had. *)
Lemma js_set_others key value (obj : Entitlements) :
  filter (λ e, e.1 ≠ key) (js_set key value obj) = filter (λ e, e.1 ≠ key) obj.
Proof.
  induction obj as [|[k v] rest IH]; cbn [js_set].
  - rewrite filter_cons_False; [done | cbn; tauto].
  - destruct (decide (k = key)) as [->|Hk].
    + rewrite !filter_cons_False; cbn; tauto.
    + rewrite !filter_cons_True by done. by rewrite IH.
Qed.

Lemma js_keys_set_default key value :
  js_keys (js_set key value defaultEntitlementsFile) = [key].
Proof. reflexivity. Qed.

(** ** The associated-domains list *)

Lemma indexOf_from_ge i arr x : (0 ≤ i)%Z → indexOf_from i arr x ≠ (-1)%Z → x ∈ arr.
Proof.
  revert i. induction arr as [|y rest IH]; intros i Hi; simpl.
  - done.
  - destruct (decide (y = x)) as [->|Hne]; [left|].
    intros H. right. apply (IH (i + 1)%Z); [lia | done].
Qed.

Lemma indexOf_from_found i arr x : (0 ≤ i)%Z → x ∈ arr → (0 ≤ indexOf_from i arr x)%Z.
Proof.
  revert i. induction arr as [|y rest IH]; intros i Hi Hin; simpl.
  - by apply elem_of_nil in Hin.
  - destruct (decide (y = x)) as [->|Hne]; [done|].
    apply elem_of_cons in Hin as [->|Hin]; [done|].
    apply IH; [lia | done].
Qed.

(** [indexOf] answers -1 exactly for the strings the array does not hold. *)
Lemma indexOf_absent arr x : indexOf arr x = (-1)%Z ↔ x ∉ arr.
Proof.
  unfold indexOf. split.
  - intros H Hin. pose proof (indexOf_from_found 0 arr x ltac:(lia) Hin). lia.
  - intros Hnin. destruct (decide (indexOf_from 0 arr x = (-1)%Z)) as [|Hne]; [done|].
    exfalso. apply Hnin. by apply (indexOf_from_ge 0).
Qed.

Lemma add_host_link_new acc host :
  domainsListEntryForHost host ∉ acc →
  add_host_link acc host = acc ++ [domainsListEntryForHost host].
Proof.
  intros H. unfold add_host_link, push. simpl.
  apply indexOf_absent in H. rewrite H. done.
Qed.

Lemma add_host_link_seen acc host :
  domainsListEntryForHost host ∈ acc → add_host_link acc host = acc.
Proof.
  intros H. unfold add_host_link. simpl.
  destruct (Z.eqb_spec (indexOf acc (domainsListEntryForHost host)) (-1)) as [E|E]; [|done].
  apply indexOf_absent in E. done.
Qed.

(** The loop, started on any array: it appends the first occurrences that the
    array does not hold yet. *)
Lemma fold_add_host_link (l : list Host) (acc : list string) :
  fold_left add_host_link l acc
  = acc ++ filter (λ y, y ∉ acc) (first_occurrences (domainsListEntryForHost <$> l)).
Proof.
  revert acc. induction l as [|h rest IH]; intros acc;
    cbn [fold_left fmap list_fmap first_occurrences].
  - by rewrite app_nil_r.
  - set (x := domainsListEntryForHost h).
    destruct (decide (x ∈ acc)) as [Hin|Hnin].
    + rewrite add_host_link_seen by done. rewrite IH.
      rewrite filter_cons_False by (intros H; by apply H).
      rewrite list_filter_filter. f_equal. apply list_filter_iff.
      intros y. split; [|by intros [? _]]. intros Hy. split; [done|]. by intros ->.
    + rewrite add_host_link_new by done. rewrite IH.
      rewrite filter_cons_True by done.
      rewrite <- app_assoc. simpl. do 2 f_equal.
      rewrite list_filter_filter. apply list_filter_iff.
      intros y. rewrite elem_of_app, list_elem_of_singleton. tauto.
Qed.

Lemma first_occurrences_elem_of (l : list string) x :
  x ∈ first_occurrences l ↔ x ∈ l.
Proof.
  induction l as [|y rest IH]; cbn [first_occurrences]; [done|].
  rewrite !elem_of_cons, list_elem_of_filter, IH.
  destruct (decide (x = y)); tauto.
Qed.

Lemma first_occurrences_NoDup (l : list string) : NoDup (first_occurrences l).
Proof.
  induction l as [|y rest IH]; cbn [first_occurrences]; [constructor|].
  constructor.
  - rewrite list_elem_of_filter. tauto.
  - by apply NoDup_filter.
Qed.

Lemma filter_not_in_nil (l : list string) :
  filter (λ y, y ∉ @nil string) l = l.
Proof.
  induction l as [|x l IH]; [done|].
  rewrite filter_cons_True by apply not_elem_of_nil. by rewrite IH.
Qed.

(** De-duplicating the entries is de-duplicating the names: the prefix does
    not identify two names. *)
Lemma first_occurrences_entries (names : list string) :
  first_occurrences ((λ n, "applinks:" +:+ n) <$> names)
  = (λ n, "applinks:" +:+ n) <$> first_occurrences names.
Proof.
  induction names as [|n rest IH]; cbn [fmap list_fmap first_occurrences]; [done|].
  f_equal. rewrite IH. clear IH.
  induction (first_occurrences rest) as [|m l IHl]; [done|].
  cbn [fmap list_fmap]. rewrite !filter_cons.
  destruct (decide (m ≠ n)) as [Hne|Heq].
  - rewrite decide_True by (intros E; by apply (inj _) in E).
    cbn [fmap list_fmap]. by f_equal.
  - rewrite decide_False; [done|]. intros H. apply Heq. intros ->. by apply H.
Qed.

(** C1: the list computed from the hosts, and stored under
    [com.apple.developer.associated-domains] by [injectPreferences], is the
    list of the entries ['applinks:' ++ name] of the hosts, de-duplicated on
    the computed entry, in the order of their first occurrences; these are the
    entries of the first occurrences of the names. *)
Theorem associated_domains_first_occurrences (pluginPreferences : PluginPreferences) :
  generateAssociatedDomainsContent pluginPreferences
  = associated_domains_of (hosts pluginPreferences)
  ∧ associated_domains_of (hosts pluginPreferences)
    = (λ n, "applinks:" +:+ n) <$> first_occurrences (name <$> hosts pluginPreferences)
  ∧ ∀ current : Entitlements,
      js_get ASSOCIATED_DOMAINS (injectPreferences current pluginPreferences)
      = Some (domains_value (associated_domains_of (hosts pluginPreferences))).
Proof.
  assert (generateAssociatedDomainsContent pluginPreferences
          = associated_domains_of (hosts pluginPreferences)) as E.
  { unfold generateAssociatedDomainsContent, associated_domains_of.
    rewrite fold_add_host_link. cbn [app].
    apply filter_not_in_nil. }
  split; [done|]. split.
  - unfold associated_domains_of.
    rewrite <- first_occurrences_entries. by rewrite <- list_fmap_compose.
  - intros current. unfold injectPreferences. cbn zeta.
    by rewrite js_get_set_eq, E.
Qed.

(** C3: merging leaves every key other than
    [com.apple.developer.associated-domains] with the value it had (their
    entries are the same, in the same order), and the value under that key is
    the newly computed list whatever was stored there before. *)
Theorem injectPreferences_frame (current : Entitlements)
    (pluginPreferences : PluginPreferences) :
  let merged := injectPreferences current pluginPreferences in
  (∀ key, key ≠ ASSOCIATED_DOMAINS → js_get key merged = js_get key current)
  ∧ filter (λ e, e.1 ≠ ASSOCIATED_DOMAINS) merged
    = filter (λ e, e.1 ≠ ASSOCIATED_DOMAINS) current
  ∧ js_get ASSOCIATED_DOMAINS merged
    = Some (domains_value (generateAssociatedDomainsContent pluginPreferences))
  ∧ ∀ previous,
      injectPreferences (js_set ASSOCIATED_DOMAINS previous current) pluginPreferences
      = merged.
Proof.
  cbn zeta. unfold injectPreferences. cbn zeta. repeat split.
  - intros key Hne. by apply js_get_set_ne.
  - apply js_set_others.
  - apply js_get_set_eq.
  - intros previous. apply js_set_set.
Qed.

Example preservation_example :
  injectPreferences [("other-key", PString "value")] {| hosts := [ {| name := "x.com" |} ] |}
  = [("other-key", PString "value");
     ("com.apple.developer.associated-domains", PArray [PString "applinks:x.com"])].
Proof. reflexivity. Qed.

(** C5: with no hosts the merged document still has the key
    [com.apple.developer.associated-domains], and its value is the empty
    list. *)
Theorem injectPreferences_no_hosts (current : Entitlements) :
  js_get ASSOCIATED_DOMAINS (injectPreferences current {| hosts := [] |})
  = Some (PArray [])
  ∧ ASSOCIATED_DOMAINS ∈ js_keys (injectPreferences current {| hosts := [] |}).
Proof.
  split.
  - unfold injectPreferences. cbn zeta. by rewrite js_get_set_eq.
  - unfold injectPreferences, js_keys. cbn zeta.
    generalize (domains_value (generateAssociatedDomainsContent {| hosts := [] |})).
    intros value. induction current as [|[k v] rest IH]; cbn [js_set].
    + cbn. left.
    + destruct (decide (k = ASSOCIATED_DOMAINS)) as [->|Hne]; cbn; [left|by right].
Qed.

(** ** Running the hook *)

Section Run.

Variable plist : PlistModule.
Variable path : PathModule.

#[local] Arguments fs_mkpath : simpl never.
#[local] Arguments fs_writeFile : simpl never.
#[local] Arguments fs_readFile : simpl never.

#[local] Abbreviation debug_path := (debug_path path).
#[local] Abbreviation release_path := (release_path path).
#[local] Abbreviation cache_debug := (cache_debug path).
#[local] Abbreviation cache_release := (cache_release path).
#[local] Abbreviation document_at := (document_at plist).
#[local] Abbreviation save_files := (save_files path).
#[local] Abbreviation add_dir := (add_dir path).
#[local] Abbreviation fs_mkpath := (fs_mkpath path).
#[local] Abbreviation permits := (permits path).
#[local] Abbreviation settled := (settled path).
#[local] Abbreviation generateEntitlements := (generateEntitlements plist path).

Ltac run :=
  unfold mbind, M_bind, mret, M_ret, assign, get_vars, put_vars, throw, js_try,
    on_disk, ConfigXmlHelper_getProjectName; cbn.

(** *** Path lookups *)

Lemma pathToDebugEntitlementsFile_run v fs ctx :
  context v = Some ctx →
  pathToDebugEntitlementsFile path {| vars := v; disk := fs |}
  = (Returned (debug_path v ctx), {| vars := cache_debug v ctx; disk := fs |}).
Proof.
  destruct v as [c r n d rl]. cbn. intros ->.
  unfold pathToDebugEntitlementsFile, getProjectRoot, getProjectName,
    debug_path, cache_debug, cache_name, name_of.
  run. destruct d as [d|]; [done|]. cbn. by destruct n.
Qed.

Lemma pathToReleaseEntitlementsFile_run v fs ctx :
  context v = Some ctx →
  pathToReleaseEntitlementsFile path {| vars := v; disk := fs |}
  = (Returned (release_path v ctx), {| vars := cache_release v ctx; disk := fs |}).
Proof.
  destruct v as [c r n d rl]. cbn. intros ->.
  unfold pathToReleaseEntitlementsFile, getProjectRoot, getProjectName,
    release_path, cache_release, cache_name, name_of.
  run. destruct rl as [rl|]; [done|]. cbn. by destruct n.
Qed.

Lemma context_cache_debug v ctx : context (cache_debug v ctx) = context v.
Proof. destruct v as [c r n [d|] rl]; [done|]. cbn. by destruct n. Qed.

Lemma context_cache_release v ctx : context (cache_release v ctx) = context v.
Proof. destruct v as [c r n d [rl|]]; [done|]. cbn. by destruct n. Qed.

(** Once looked up, a path is cached: later lookups answer the cached value
    and change nothing, whatever the context is by then. *)
Lemma debug_path_cached v ctx :
  debugEntitlementsFilePath (cache_debug v ctx) = Some (debug_path v ctx).
Proof. by destruct v as [c r n [d|] rl]. Qed.

Lemma release_path_cached v ctx :
  releaseEntitlementsFilePath (cache_release v ctx) = Some (release_path v ctx).
Proof. by destruct v as [c r n d [rl|]]. Qed.

Lemma debug_path_of_cached v p ctx :
  debugEntitlementsFilePath v = Some p → debug_path v ctx = p ∧ cache_debug v ctx = v.
Proof.
  destruct v as [c r n d rl]. cbn. intros ->. done.
Qed.

Lemma release_path_of_cached v p ctx :
  releaseEntitlementsFilePath v = Some p →
  release_path v ctx = p ∧ cache_release v ctx = v.
Proof.
  destruct v as [c r n d rl]. cbn. intros ->. done.
Qed.

Lemma release_path_cache_debug v ctx :
  release_path (cache_debug v ctx) ctx = release_path v ctx.
Proof.
  by destruct v as [c r [n|] [d|] [rl|]].
Qed.

Lemma debug_path_cache_release v ctx :
  debugEntitlementsFilePath (cache_release v ctx) = debugEntitlementsFilePath v.
Proof.
  by destruct v as [c r [n|] d [rl|]].
Qed.

Lemma settled_debug v ctx :
  debugEntitlementsFilePath (settled v ctx) = Some (debug_path (set_context ctx v) ctx).
Proof. unfold settled. by rewrite debug_path_cache_release, debug_path_cached. Qed.

Lemma settled_release v ctx :
  releaseEntitlementsFilePath (settled v ctx)
  = Some (release_path (set_context ctx v) ctx).
Proof. unfold settled. by rewrite release_path_cached, release_path_cache_debug. Qed.

Lemma settled_context v ctx : context (settled v ctx) = Some ctx.
Proof.
  unfold settled. rewrite context_cache_release, context_cache_debug.
  by destruct v.
Qed.

(** *** Reading *)

Lemma read_run p v fs :
  js_try (readFileSync p) {| vars := v; disk := fs |}
  = (Returned (fs_readFile p fs), {| vars := v; disk := fs |}).
Proof. done. Qed.

Lemma getDebugEntitlementsFileContent_run v fs ctx :
  context v = Some ctx →
  getDebugEntitlementsFileContent plist path {| vars := v; disk := fs |}
  = (document_at fs (debug_path v ctx), {| vars := cache_debug v ctx; disk := fs |}).
Proof.
  intros Hc. unfold getDebugEntitlementsFileContent.
  unfold mbind at 1, M_bind at 1. rewrite (pathToDebugEntitlementsFile_run _ _ _ Hc).
  unfold mbind, M_bind. rewrite read_run. unfold document_at, plist_parse_call.
  destruct (fs_readFile _ fs) as [content|e]; [|done].
  by destruct (plist_parse plist content).
Qed.

Lemma getReleaseEntitlementsFileContent_run v fs ctx :
  context v = Some ctx →
  getReleaseEntitlementsFileContent plist path {| vars := v; disk := fs |}
  = (document_at fs (release_path v ctx), {| vars := cache_release v ctx; disk := fs |}).
Proof.
  intros Hc. unfold getReleaseEntitlementsFileContent.
  unfold mbind at 1, M_bind at 1. rewrite (pathToReleaseEntitlementsFile_run _ _ _ Hc).
  unfold mbind, M_bind. rewrite read_run. unfold document_at, plist_parse_call.
  destruct (fs_readFile _ fs) as [content|e]; [|done].
  by destruct (plist_parse plist content).
Qed.

(** *** Saving *)

Lemma saveContentToEntitlementsFile_run v fs pd pr debugContent releaseContent :
  debugEntitlementsFilePath v = Some pd →
  releaseEntitlementsFilePath v = Some pr →
  saveContentToEntitlementsFile plist path debugContent releaseContent
    {| vars := v; disk := fs |}
  = let (r, fs') := save_files pd pr (plist_build plist debugContent)
                      (plist_build plist releaseContent) fs in
    (r, {| vars := v; disk := fs' |}).
Proof.
  intros Hd Hr. destruct v as [c r n d rl]. cbn in Hd, Hr. subst d rl.
  unfold saveContentToEntitlementsFile, pathToDebugEntitlementsFile,
    pathToReleaseEntitlementsFile, mkpath_sync, writeFileSync, save_files.
  run.
  destruct (fs_mkpath (path_dirname path pd) fs) as [[[]|e1] fs1]; cbn; [|done].
  destruct (fs_mkpath (path_dirname path pr) fs1) as [[[]|e2] fs2]; cbn; [|done].
  destruct (fs_writeFile (path_dirname path pd) pd _ fs2) as [[[]|e3] fs3]; cbn; [|done].
  by destruct (fs_writeFile (path_dirname path pr) pr _ fs3) as [[[]|e4] fs4].
Qed.

(** *** The whole run *)

(** What [generateEntitlements] does, as one expression over the state it
    starts in. *)
Lemma generateEntitlements_run cordovaContext pluginPreferences v fs :
  let v0 := set_context cordovaContext v in
  let pd := debug_path v0 cordovaContext in
  let pr := release_path v0 cordovaContext in
  generateEntitlements cordovaContext pluginPreferences {| vars := v; disk := fs |}
  = match document_at fs pd with
    | Thrown e => (Thrown e, {| vars := cache_debug v0 cordovaContext; disk := fs |})
    | Returned currentDebug =>
        match document_at fs pr with
        | Thrown e => (Thrown e, {| vars := settled v cordovaContext; disk := fs |})
        | Returned currentRelease =>
            let (r, fs') :=
              save_files pd pr
                (plist_build plist
                   (injectPreferences_value currentDebug pluginPreferences))
                (plist_build plist
                   (injectPreferences_value currentRelease pluginPreferences))
                fs in
            (r, {| vars := settled v cordovaContext; disk := fs' |})
        end
    end.
Proof.
  intros v0 pd pr.
  assert (context v0 = Some cordovaContext) as Hc by (by destruct v).
  unfold generateEntitlements.
  unfold mbind at 1, M_bind at 1.
  change (assign (set_context cordovaContext) {| vars := v; disk := fs |})
    with (Returned tt, {| vars := v0; disk := fs |}). cbv iota beta.
  unfold mbind at 1, M_bind at 1.
  rewrite (getDebugEntitlementsFileContent_run _ _ _ Hc). fold pd.
  destruct (document_at fs pd) as [currentDebug|e]; [|done].
  unfold mbind at 1, M_bind at 1.
  rewrite getReleaseEntitlementsFileContent_run
    with (ctx := cordovaContext) by (by rewrite context_cache_debug).
  rewrite release_path_cache_debug. fold pr. fold (settled v cordovaContext).
  destruct (document_at fs pr) as [currentRelease|e]; [|done].
  cbv zeta.
  apply saveContentToEntitlementsFile_run.
  - apply settled_debug.
  - apply settled_release.
Qed.

(** *** Malformed files *)

Lemma document_at_malformed fs p content :
  fs_readFile p fs = Returned content →
  plist_parse plist content = None →
  document_at fs p = Thrown (PlistError content).
Proof. intros Hr Hp. unfold document_at. by rewrite Hr, Hp. Qed.

(** The fallback is taken exactly when the file cannot be read. *)
Lemma document_at_unreadable fs p e :
  fs_readFile p fs = Thrown e →
  document_at fs p = Returned (PDict defaultEntitlementsFile).
Proof. intros Hr. unfold document_at. by rewrite Hr. Qed.

(** C2, as amended: when a target file can be read but its content is not a
    parseable property list, the read step throws the parse error instead of
    falling back to the empty document; [generateEntitlements] throws a parse
    error to its caller and leaves the file system as it was, so the malformed
    file is not overwritten. *)
Theorem malformed_file_is_fatal cordovaContext pluginPreferences v fs content :
  let v0 := set_context cordovaContext v in
  let pd := debug_path v0 cordovaContext in
  let pr := release_path v0 cordovaContext in
  plist_parse plist content = None →
  (fs_readFile pd fs = Returned content →
     getDebugEntitlementsFileContent plist path {| vars := v0; disk := fs |}
     = (Thrown (PlistError content),
        {| vars := cache_debug v0 cordovaContext; disk := fs |}))
  ∧ (fs_readFile pr fs = Returned content →
     getReleaseEntitlementsFileContent plist path {| vars := v0; disk := fs |}
     = (Thrown (PlistError content),
        {| vars := cache_release v0 cordovaContext; disk := fs |}))
  ∧ (fs_readFile pd fs = Returned content ∨ fs_readFile pr fs = Returned content →
     ∃ bad v',
       plist_parse plist bad = None
       ∧ generateEntitlements cordovaContext pluginPreferences {| vars := v; disk := fs |}
         = (Thrown (PlistError bad), {| vars := v'; disk := fs |})).
Proof.
  intros v0 pd pr Hbad.
  assert (context v0 = Some cordovaContext) as Hc by (by destruct v).
  split; [|split].
  - intros Hr. rewrite (getDebugEntitlementsFileContent_run _ _ _ Hc).
    fold pd. by rewrite (document_at_malformed _ _ _ Hr Hbad).
  - intros Hr. rewrite (getReleaseEntitlementsFileContent_run _ _ _ Hc).
    fold pr. by rewrite (document_at_malformed _ _ _ Hr Hbad).
  - intros Hr. rewrite generateEntitlements_run. fold v0 pd pr.
    destruct (document_at fs pd) as [currentDebug|e] eqn:Ed.
    + destruct Hr as [Hr|Hr].
      { rewrite (document_at_malformed _ _ _ Hr Hbad) in Ed. discriminate. }
      rewrite (document_at_malformed _ _ _ Hr Hbad). eauto.
    + unfold document_at in Ed.
      destruct (fs_readFile pd fs) as [c|]; [|discriminate].
      destruct (plist_parse plist c) eqn:Ec; [discriminate|].
      injection Ed as <-. eauto.
Qed.

(** *** Failures of the file system *)

(** C7: an error of the file system during directory creation or file
    writing is not caught.  Once both documents have been read, the first of
    the four calls (create the debug directory, create the release directory,
    write the debug file, write the release file) that throws ends the run:
    [generateEntitlements] throws that very error, and the file system is left
    as the failing call left it, with no later call made and no earlier one
    undone. *)
Theorem file_system_errors_propagate cordovaContext pluginPreferences v fs
    currentDebug currentRelease e :
  let v0 := set_context cordovaContext v in
  let pd := debug_path v0 cordovaContext in
  let pr := release_path v0 cordovaContext in
  let cd :=
    plist_build plist (injectPreferences_value currentDebug pluginPreferences) in
  let cr :=
    plist_build plist (injectPreferences_value currentRelease pluginPreferences) in
  let failed fs' :=
    generateEntitlements cordovaContext pluginPreferences {| vars := v; disk := fs |}
    = (Thrown e, {| vars := settled v cordovaContext; disk := fs' |}) in
  document_at fs pd = Returned currentDebug →
  document_at fs pr = Returned currentRelease →
  (∀ fs1, fs_mkpath (path_dirname path pd) fs = (Thrown e, fs1) → failed fs1)
  ∧ (∀ fs1 fs2,
       fs_mkpath (path_dirname path pd) fs = (Returned tt, fs1) →
       fs_mkpath (path_dirname path pr) fs1 = (Thrown e, fs2) → failed fs2)
  ∧ (∀ fs1 fs2 fs3,
       fs_mkpath (path_dirname path pd) fs = (Returned tt, fs1) →
       fs_mkpath (path_dirname path pr) fs1 = (Returned tt, fs2) →
       fs_writeFile (path_dirname path pd) pd cd fs2 = (Thrown e, fs3) → failed fs3)
  ∧ (∀ fs1 fs2 fs3 fs4,
       fs_mkpath (path_dirname path pd) fs = (Returned tt, fs1) →
       fs_mkpath (path_dirname path pr) fs1 = (Returned tt, fs2) →
       fs_writeFile (path_dirname path pd) pd cd fs2 = (Returned tt, fs3) →
       fs_writeFile (path_dirname path pr) pr cr fs3 = (Thrown e, fs4) → failed fs4).
Proof.
  intros v0 pd pr cd cr failed Hd Hr. unfold failed.
  rewrite generateEntitlements_run. fold v0 pd pr. rewrite Hd, Hr. fold cd cr.
  unfold save_files.
  repeat split.
  - intros fs1 H1. by rewrite H1.
  - intros fs1 fs2 H1 H2. by rewrite H1, H2.
  - intros fs1 fs2 fs3 H1 H2 H3. by rewrite H1, H2, H3.
  - intros fs1 fs2 fs3 fs4 H1 H2 H3 H4. by rewrite H1, H2, H3, H4.
Qed.

(** *** Directories *)

Lemma make_dirs_has fuel dir (existing : gset string) :
  dir ∈ make_dirs path fuel dir existing.
Proof.
  destruct fuel; cbn [make_dirs]; case_decide; try done;
    apply elem_of_union_l, elem_of_singleton; done.
Qed.

Lemma make_dirs_mono fuel dir (existing : gset string) :
  existing ⊆ make_dirs path fuel dir existing.
Proof.
  revert dir. induction fuel as [|fuel IH]; intros dir; cbn [make_dirs];
    case_decide; try done.
  - apply union_subseteq_r.
  - etrans; [apply (IH (path_dirname path dir))|]. apply union_subseteq_r.
Qed.

Lemma make_dirs_present fuel dir (existing : gset string) :
  dir ∈ existing → make_dirs path fuel dir existing = existing.
Proof. intros H. destruct fuel; cbn [make_dirs]; by rewrite decide_True. Qed.

Lemma add_dir_has d fs : d ∈ dirs (add_dir d fs).
Proof. apply make_dirs_has. Qed.

Lemma add_dir_mono d fs : dirs fs ⊆ dirs (add_dir d fs).
Proof. apply make_dirs_mono. Qed.

Lemma add_dir_again d fs : d ∈ dirs fs → add_dir d fs = fs.
Proof.
  destruct fs as [f ds rr rm rw]. unfold add_dir. cbn. intros Hd. f_equal.
  by apply make_dirs_present.
Qed.

Lemma put_file_again p c fs : files fs !! p = Some c → put_file p c fs = fs.
Proof.
  destruct fs as [f ds rr rm rw]. unfold put_file. cbn. intros H. f_equal.
  by apply insert_id.
Qed.

(** *** Runs that complete *)

(** The save step, by the refusals of the file system: the directory of a
    file exists by the time the file is written. *)
Lemma save_files_cases pd pr cd cr fs :
  let dd := path_dirname path pd in
  let dr := path_dirname path pr in
  save_files pd pr cd cr fs
  = if decide (dd ∈ refused_mkdir fs) then (Thrown (FsError "EACCES" dd), fs)
    else if decide (dr ∈ refused_mkdir fs) then
      (Thrown (FsError "EACCES" dr), add_dir dd fs)
    else if decide (pd ∈ refused_write fs) then
      (Thrown (FsError "EACCES" pd), add_dir dr (add_dir dd fs))
    else if decide (pr ∈ refused_write fs) then
      (Thrown (FsError "EACCES" pr), put_file pd cd (add_dir dr (add_dir dd fs)))
    else
      (Returned tt, put_file pr cr (put_file pd cd (add_dir dr (add_dir dd fs)))).
Proof.
  intros dd dr.
  unfold save_files, fs_mkpath, fs_writeFile. fold dd dr. cbn.
  destruct (decide (dd ∈ refused_mkdir fs)); [done|]. cbn.
  destruct (decide (dr ∈ refused_mkdir fs)); [done|]. cbn.
  destruct (decide (pd ∈ refused_write fs)); [done|].
  rewrite decide_True by (apply make_dirs_mono, make_dirs_has). cbn.
  destruct (decide (pr ∈ refused_write fs)); [done|].
  by rewrite decide_True by apply make_dirs_has.
Qed.

(** The four calls of the save step go through when the file system refuses
    none of them. *)
Lemma save_files_returns pd pr cd cr fs :
  permits fs pd pr →
  save_files pd pr cd cr fs
  = (Returned tt,
     put_file pr cr
       (put_file pd cd (add_dir (path_dirname path pr) (add_dir (path_dirname path pd) fs)))).
Proof.
  intros (Hdd & Hdr & Hpd & Hpr). rewrite save_files_cases. cbn zeta.
  rewrite (decide_False (P := path_dirname path pd ∈ refused_mkdir fs)) by done.
  rewrite (decide_False (P := path_dirname path pr ∈ refused_mkdir fs)) by done.
  rewrite (decide_False (P := pd ∈ refused_write fs)) by done.
  by rewrite (decide_False (P := pr ∈ refused_write fs)) by done.
Qed.

Lemma document_at_missing fs p :
  file_content fs p = None →
  document_at fs p = Returned (PDict defaultEntitlementsFile).
Proof.
  unfold file_content. intros H.
  unfold document_at, fs_readFile. rewrite H.
  by destruct (decide (p ∈ refused_read fs)).
Qed.

(** C6: when neither the debug nor the release file exists and the file
    system refuses none of the calls of the save step, [generateEntitlements]
    returns, and afterwards both files exist, each holding the serialisation
    of a document whose only key is
    [com.apple.developer.associated-domains]. *)
Theorem missing_files_are_created cordovaContext pluginPreferences v fs :
  let v0 := set_context cordovaContext v in
  let pd := debug_path v0 cordovaContext in
  let pr := release_path v0 cordovaContext in
  let document := injectPreferences defaultEntitlementsFile pluginPreferences in
  file_content fs pd = None →
  file_content fs pr = None →
  permits fs pd pr →
  ∃ st',
    generateEntitlements cordovaContext pluginPreferences {| vars := v; disk := fs |}
    = (Returned tt, st')
    ∧ file_content (disk st') pd = Some (plist_build plist (PDict document))
    ∧ file_content (disk st') pr = Some (plist_build plist (PDict document))
    ∧ js_keys document = [ASSOCIATED_DOMAINS].
Proof.
  intros v0 pd pr document Hd Hr Hok.
  rewrite generateEntitlements_run. fold v0 pd pr.
  rewrite (document_at_missing _ _ Hd), (document_at_missing _ _ Hr).
  rewrite (save_files_returns _ _ _ _ _ Hok).
  cbn [injectPreferences_value]. fold document.
  eexists. split; [done|]. unfold file_content. cbn [disk files put_file].
  repeat split.
  - destruct (decide (pd = pr)) as [->|Hne].
    + by rewrite lookup_insert_eq.
    + rewrite lookup_insert_ne by done. by rewrite lookup_insert_eq.
  - by rewrite lookup_insert_eq.
Qed.

(** A run of the save step that returns was refused none of its calls. *)
Lemma save_files_returned pd pr cd cr fs fs' :
  save_files pd pr cd cr fs = (Returned tt, fs') → permits fs pd pr.
Proof.
  rewrite save_files_cases. cbn zeta. unfold permits.
  repeat case_decide; by intros [= ?].
Qed.

(** What a run that returns has read and written. *)
Lemma generateEntitlements_returned cordovaContext pluginPreferences v fs st' :
  let v0 := set_context cordovaContext v in
  let pd := debug_path v0 cordovaContext in
  let pr := release_path v0 cordovaContext in
  generateEntitlements cordovaContext pluginPreferences {| vars := v; disk := fs |}
  = (Returned tt, st') →
  ∃ currentDebug currentRelease,
    document_at fs pd = Returned currentDebug
    ∧ document_at fs pr = Returned currentRelease
    ∧ permits fs pd pr
    ∧ st' = {| vars := settled v cordovaContext;
               disk :=
                 put_file pr
                   (plist_build plist
                      (injectPreferences_value currentRelease pluginPreferences))
                   (put_file pd
                      (plist_build plist
                         (injectPreferences_value currentDebug pluginPreferences))
                      (add_dir (path_dirname path pr)
                         (add_dir (path_dirname path pd) fs))) |}.
Proof.
  intros v0 pd pr. rewrite generateEntitlements_run. fold v0 pd pr.
  destruct (document_at fs pd) as [currentDebug|]; [|done].
  destruct (document_at fs pr) as [currentRelease|]; [|done].
  destruct (save_files _ _ _ _ _) as [r fs'] eqn:Es.
  intros [= -> <-]. pose proof (save_files_returned _ _ _ _ _ _ Es) as Hok.
  rewrite (save_files_returns _ _ _ _ _ Hok) in Es. injection Es as <-.
  by exists currentDebug, currentRelease.
Qed.

(** The starting document depends on what reading the file gives, and on
    nothing else. *)
Lemma document_at_read_content fs p :
  document_at fs p
  = match read_content fs p with
    | Some content =>
        match plist_parse plist content with
        | Some document => Returned document
        | None => Thrown (PlistError content)
        end
    | None => Returned (PDict defaultEntitlementsFile)
    end.
Proof. unfold document_at, read_content. by destruct (fs_readFile p fs). Qed.

Lemma document_at_same_read fs fs' p q :
  read_content fs p = read_content fs' q → document_at fs p = document_at fs' q.
Proof. intros H. by rewrite !document_at_read_content, H. Qed.

Lemma injectPreferences_value_dict entries pluginPreferences :
  ∃ merged,
    injectPreferences_value (PDict entries) pluginPreferences = PDict merged
    ∧ js_get ASSOCIATED_DOMAINS merged
      = Some (domains_value (generateAssociatedDomainsContent pluginPreferences))
    ∧ ∀ key, key ≠ ASSOCIATED_DOMAINS → js_get key merged = js_get key entries.
Proof.
  exists (injectPreferences entries pluginPreferences). split; [done|].
  unfold injectPreferences. cbn zeta. split; [apply js_get_set_eq|].
  intros key Hkey. by apply js_get_set_ne.
Qed.

(** C8, as amended: the debug and the release document go through the same
    transformation.  In a run that returns, each file holds the
    serialisation of [injectPreferences] applied to its own starting
    document; a starting document that is a dictionary carries the newly
    computed list under [com.apple.developer.associated-domains] and keeps
    its other keys; and if reading the two files gives the same result (the
    same content, or a failure for both) the starting documents are equal
    and the two files end with equal content. *)
Theorem debug_and_release_alike cordovaContext pluginPreferences v fs st' :
  let v0 := set_context cordovaContext v in
  let pd := debug_path v0 cordovaContext in
  let pr := release_path v0 cordovaContext in
  let merged_from (starting : plist_value) (written : plist_value) :=
    written = injectPreferences_value starting pluginPreferences
    ∧ ∀ entries, starting = PDict entries →
        ∃ merged,
          written = PDict merged
          ∧ js_get ASSOCIATED_DOMAINS merged
            = Some (domains_value (generateAssociatedDomainsContent pluginPreferences))
          ∧ ∀ key, key ≠ ASSOCIATED_DOMAINS → js_get key merged = js_get key entries in
  generateEntitlements cordovaContext pluginPreferences {| vars := v; disk := fs |}
  = (Returned tt, st') →
  ∃ currentDebug currentRelease newDebug newRelease,
    document_at fs pd = Returned currentDebug
    ∧ document_at fs pr = Returned currentRelease
    ∧ merged_from currentDebug newDebug
    ∧ merged_from currentRelease newRelease
    ∧ (pd ≠ pr → file_content (disk st') pd = Some (plist_build plist newDebug))
    ∧ file_content (disk st') pr = Some (plist_build plist newRelease)
    ∧ (read_content fs pd = read_content fs pr →
       currentDebug = currentRelease
       ∧ file_content (disk st') pd = file_content (disk st') pr).
Proof.
  intros v0 pd pr merged_from Hrun.
  apply generateEntitlements_returned in Hrun
    as (currentDebug & currentRelease & Hd & Hr & Hok & ->).
  fold v0 pd pr in Hd, Hr, Hok |- *.
  exists currentDebug, currentRelease,
    (injectPreferences_value currentDebug pluginPreferences),
    (injectPreferences_value currentRelease pluginPreferences).
  unfold file_content, merged_from. cbn [disk files put_file].
  split; [done|]. split; [done|].
  split; [split; [done|]; intros entries ->; apply injectPreferences_value_dict|].
  split; [split; [done|]; intros entries ->; apply injectPreferences_value_dict|].
  split; [|split].
  - intros Hne. rewrite lookup_insert_ne by done. by rewrite lookup_insert_eq.
  - by rewrite lookup_insert_eq.
  - intros Heq.
    rewrite (document_at_same_read fs fs pd pr Heq), Hr in Hd.
    injection Hd as ->. split; [done|].
    destruct (decide (pd = pr)) as [->|Hne]; [done|].
    rewrite (lookup_insert_ne _ pr pd) by done. by rewrite !lookup_insert_eq.
Qed.

(** C10, as amended: the run is determined by what it resolves and reads.
    Two runs under the same context and preferences whose module variables
    resolve the same two paths, against file systems on which reading each
    target file gives the same result, start from the same documents; if both
    return, each target file holds in both the serialisation of
    [injectPreferences] applied to its starting document. *)
Theorem generate_deterministic cordovaContext pluginPreferences v v' fs fs' st1 st1' :
  let pd := debug_path (set_context cordovaContext v) cordovaContext in
  let pr := release_path (set_context cordovaContext v) cordovaContext in
  debug_path (set_context cordovaContext v') cordovaContext = pd →
  release_path (set_context cordovaContext v') cordovaContext = pr →
  read_content fs pd = read_content fs' pd →
  read_content fs pr = read_content fs' pr →
  generateEntitlements cordovaContext pluginPreferences {| vars := v; disk := fs |}
  = (Returned tt, st1) →
  generateEntitlements cordovaContext pluginPreferences {| vars := v'; disk := fs' |}
  = (Returned tt, st1') →
  ∃ currentDebug currentRelease,
    (document_at fs pd = Returned currentDebug
     ∧ document_at fs' pd = Returned currentDebug)
    ∧ (document_at fs pr = Returned currentRelease
       ∧ document_at fs' pr = Returned currentRelease)
    ∧ (let text :=
         Some (plist_build plist
                 (injectPreferences_value currentRelease pluginPreferences)) in
       file_content (disk st1) pr = text ∧ file_content (disk st1') pr = text)
    ∧ (pd ≠ pr →
       let text :=
         Some (plist_build plist
                 (injectPreferences_value currentDebug pluginPreferences)) in
       file_content (disk st1) pd = text ∧ file_content (disk st1') pd = text)
    ∧ file_content (disk st1) pd = file_content (disk st1') pd.
Proof.
  intros pd pr Hpd Hpr Hcd Hcr Hrun Hrun'.
  apply generateEntitlements_returned in Hrun as (d & r & Hd & Hr & _ & ->).
  apply generateEntitlements_returned in Hrun' as (d' & r' & Hd' & Hr' & _ & ->).
  rewrite Hpd in Hd'. rewrite Hpr in Hr'.
  rewrite ?Hpd, ?Hpr. fold pd pr in Hd, Hr |- *.
  rewrite (document_at_same_read fs fs' pd pd Hcd), Hd' in Hd.
  rewrite (document_at_same_read fs fs' pr pr Hcr), Hr' in Hr.
  injection Hd as ->. injection Hr as ->.
  exists d, r. unfold file_content. cbn [disk files put_file]. cbn zeta.
  split; [by rewrite (document_at_same_read fs fs' pd pd Hcd)|].
  split; [by rewrite (document_at_same_read fs fs' pr pr Hcr)|].
  split; [by rewrite !lookup_insert_eq|]. split.
  - intros Hne. rewrite !(lookup_insert_ne _ pr pd) by done.
    by rewrite !lookup_insert_eq.
  - destruct (decide (pd = pr)) as [E|Hne].
    + rewrite E. by rewrite !lookup_insert_eq.
    + rewrite !(lookup_insert_ne _ pr pd) by done. by rewrite !lookup_insert_eq.
Qed.

(** *** Running twice *)

Lemma document_at_same_files fs fs' p :
  refused_read fs' = refused_read fs →
  files fs' !! p = files fs !! p →
  document_at fs' p = document_at fs p.
Proof.
  intros Hr Hf. apply document_at_same_read. unfold read_content, fs_readFile.
  by rewrite Hr, Hf.
Qed.

Lemma document_at_add_dir d fs p : document_at (add_dir d fs) p = document_at fs p.
Proof. by apply document_at_same_files. Qed.

Lemma document_at_put_file_ne q c fs p :
  p ≠ q → document_at (put_file q c fs) p = document_at fs p.
Proof.
  intros Hne. apply document_at_same_files; [done|]. cbn. by rewrite lookup_insert_ne.
Qed.

Lemma injectPreferences_twice (document : Entitlements) pluginPreferences :
  injectPreferences (injectPreferences document pluginPreferences) pluginPreferences
  = injectPreferences document pluginPreferences.
Proof. unfold injectPreferences. cbn zeta. apply js_set_set. Qed.

Lemma injectPreferences_replaces (document : Entitlements) earlier later :
  injectPreferences (injectPreferences document earlier) later
  = injectPreferences document later.
Proof. unfold injectPreferences. cbn zeta. apply js_set_set. Qed.

Lemma injectPreferences_value_replaces (document : plist_value) earlier later :
  injectPreferences_value (injectPreferences_value document earlier) later
  = injectPreferences_value document later.
Proof.
  destruct document; cbn [injectPreferences_value]; try done.
  by rewrite injectPreferences_replaces.
Qed.

(** Reading back a file that holds what a run wrote for it: the document
    that is read merges like the one the run started from. *)
Lemma reread_written fs fs' p document pluginPreferences :
  refused_read fs' = refused_read fs →
  document_at fs p = Returned document →
  round_trips plist (injectPreferences_value document pluginPreferences) →
  files fs' !! p
  = Some (plist_build plist (injectPreferences_value document pluginPreferences)) →
  ∃ reread,
    document_at fs' p = Returned reread
    ∧ ∀ later,
        injectPreferences_value reread later
        = injectPreferences_value document later.
Proof.
  intros Hr Hdoc Hrt Hfile. unfold document_at, fs_readFile in Hdoc |- *.
  rewrite Hr. destruct (decide (p ∈ refused_read fs)).
  - injection Hdoc as <-. by eexists.
  - rewrite Hfile, Hrt. eexists. split; [done|].
    intros later. apply injectPreferences_value_replaces.
Qed.

Lemma dirs_after_mkpaths dd dr fs :
  dd ∈ dirs (add_dir dr (add_dir dd fs)) ∧ dr ∈ dirs (add_dir dr (add_dir dd fs)).
Proof.
  split; [|apply add_dir_has]. apply add_dir_mono, add_dir_has.
Qed.

(** A second pass over the file system the first pass left ends the same
    way and changes nothing. *)
Lemma disk_run_again pd pr pluginPreferences fs r fs1 :
  (∀ p document, p = pd ∨ p = pr →
     document_at fs p = Returned document →
     round_trips plist (injectPreferences_value document pluginPreferences)) →
  disk_run plist path pd pr pluginPreferences fs = (r, fs1) →
  disk_run plist path pd pr pluginPreferences fs1 = (r, fs1).
Proof.
  intros Hrt. unfold disk_run.
  destruct (document_at fs pd) as [currentDebug|e] eqn:Ed; cycle 1.
  { intros [= <- <-]. by rewrite Ed. }
  destruct (document_at fs pr) as [currentRelease|e] eqn:Er; cycle 1.
  { intros [= <- <-]. by rewrite Ed, Er. }
  pose proof (Hrt pd currentDebug (or_introl eq_refl) Ed) as Hrd.
  pose proof (Hrt pr currentRelease (or_intror eq_refl) Er) as Hrr.
  set (cd := plist_build plist (injectPreferences_value currentDebug pluginPreferences))
    in *.
  set (cr := plist_build plist (injectPreferences_value currentRelease pluginPreferences))
    in *.
  set (dd := path_dirname path pd). set (dr := path_dirname path pr).
  destruct (dirs_after_mkpaths dd dr fs) as [Hdd_in Hdr_in].
  rewrite save_files_cases. fold dd dr.
  destruct (decide (dd ∈ refused_mkdir fs)) as [Hdd|Hdd].
  { intros [= <- <-]. rewrite Ed, Er. fold cd cr. rewrite save_files_cases. fold dd.
    by rewrite decide_True. }
  destruct (decide (dr ∈ refused_mkdir fs)) as [Hdr|Hdr].
  { intros [= <- <-]. rewrite !document_at_add_dir, Ed, Er. fold cd cr.
    rewrite save_files_cases. fold dd dr.
    change (refused_mkdir (add_dir dd fs)) with (refused_mkdir fs).
    rewrite decide_False, decide_True by done.
    by rewrite add_dir_again by apply add_dir_has. }
  destruct (decide (pd ∈ refused_write fs)) as [Hpd|Hpd].
  { intros [= <- <-]. rewrite !document_at_add_dir, Ed, Er. fold cd cr.
    rewrite save_files_cases. fold dd dr.
    change (refused_mkdir (add_dir dr (add_dir dd fs))) with (refused_mkdir fs).
    change (refused_write (add_dir dr (add_dir dd fs))) with (refused_write fs).
    rewrite (decide_False (P := dd ∈ refused_mkdir fs)) by done.
    rewrite (decide_False (P := dr ∈ refused_mkdir fs)) by done.
    rewrite (decide_True (P := pd ∈ refused_write fs)) by done.
    rewrite (add_dir_again dd) by done.
    by rewrite (add_dir_again dr) by done. }
  destruct (decide (pr ∈ refused_write fs)) as [Hpr|Hpr].
  { intros [= <- <-].
    assert (pd ≠ pr) as Hne by (intros ->; done).
    set (fs1 := put_file pd cd (add_dir dr (add_dir dd fs))).
    destruct (reread_written fs fs1 pd currentDebug pluginPreferences)
      as (reread & -> & Hsame); [done|done|done|apply lookup_insert_eq|].
    unfold fs1 at 1. rewrite document_at_put_file_ne by done.
    rewrite !document_at_add_dir, Er, Hsame. fold cd cr.
    rewrite save_files_cases. fold dd dr.
    change (refused_mkdir fs1) with (refused_mkdir fs).
    change (refused_write fs1) with (refused_write fs).
    rewrite (decide_False (P := dd ∈ refused_mkdir fs)) by done.
    rewrite (decide_False (P := dr ∈ refused_mkdir fs)) by done.
    rewrite (decide_False (P := pd ∈ refused_write fs)) by done.
    rewrite (decide_True (P := pr ∈ refused_write fs)) by done.
    rewrite (add_dir_again dd) by done.
    rewrite (add_dir_again dr) by done.
    by rewrite put_file_again by apply lookup_insert_eq. }
  intros [= <- <-].
  set (fs1 := put_file pr cr (put_file pd cd (add_dir dr (add_dir dd fs)))).
  destruct (reread_written fs fs1 pr currentRelease pluginPreferences)
    as (rereadRelease & Err & HsameR); [done|done|done|apply lookup_insert_eq|].
  (* the text the debug path holds after the first pass *)
  set (cd1 := if decide (pd = pr) then cr else cd).
  assert (files fs1 !! pd = Some cd1) as Hcd1.
  { unfold fs1, cd1. cbn. destruct (decide (pd = pr)) as [->|Hne].
    - apply lookup_insert_eq.
    - rewrite lookup_insert_ne by done. apply lookup_insert_eq. }
  assert (∃ rereadDebug,
            document_at fs1 pd = Returned rereadDebug
            ∧ plist_build plist (injectPreferences_value rereadDebug pluginPreferences)
              = cd1) as (rereadDebug & Erd & Hcd).
  { unfold cd1 in *. destruct (decide (pd = pr)) as [E|Hne].
    - rewrite E. exists rereadRelease. split; [done|]. by rewrite HsameR.
    - destruct (reread_written fs fs1 pd currentDebug pluginPreferences)
        as (reread & Hre & Hsame); [done|done|done|done|].
      exists reread. split; [done|]. by rewrite Hsame. }
  rewrite Erd, Err, Hcd, HsameR. fold cr.
  rewrite save_files_cases. fold dd dr.
  change (refused_mkdir fs1) with (refused_mkdir fs).
  change (refused_write fs1) with (refused_write fs).
  rewrite (decide_False (P := dd ∈ refused_mkdir fs)) by done.
  rewrite (decide_False (P := dr ∈ refused_mkdir fs)) by done.
  rewrite (decide_False (P := pd ∈ refused_write fs)) by done.
  rewrite (decide_False (P := pr ∈ refused_write fs)) by done.
  rewrite (add_dir_again dd) by done.
  rewrite (add_dir_again dr) by done.
  rewrite (put_file_again pd) by done.
  by rewrite put_file_again by apply lookup_insert_eq.
Qed.

Lemma set_context_paths c v :
  debugEntitlementsFilePath (set_context c v) = debugEntitlementsFilePath v
  ∧ releaseEntitlementsFilePath (set_context c v) = releaseEntitlementsFilePath v
  ∧ projectName (set_context c v) = projectName v.
Proof. by destruct v. Qed.

(** A run, seen from the file system: it is [disk_run] at the two paths the
    run resolves, and it leaves the debug path cached, and the release path
    too unless the debug file was malformed. *)
Lemma generateEntitlements_disk cordovaContext pluginPreferences v fs :
  let v0 := set_context cordovaContext v in
  let pd := debug_path v0 cordovaContext in
  let pr := release_path v0 cordovaContext in
  ∃ v',
    generateEntitlements cordovaContext pluginPreferences {| vars := v; disk := fs |}
    = ((disk_run plist path pd pr pluginPreferences fs).1,
       {| vars := v'; disk := (disk_run plist path pd pr pluginPreferences fs).2 |})
    ∧ debugEntitlementsFilePath v' = Some pd
    ∧ (releaseEntitlementsFilePath v' = Some pr
       ∨ ∃ e, document_at fs pd = Thrown e).
Proof.
  intros v0 pd pr. rewrite generateEntitlements_run. fold v0 pd pr. unfold disk_run.
  destruct (document_at fs pd) as [currentDebug|e].
  - exists (settled v cordovaContext).
    split; [|split; [apply settled_debug | left; apply settled_release]].
    destruct (document_at fs pr) as [currentRelease|e]; [|done].
    by destruct (save_files _ _ _ _ _).
  - exists (cache_debug v0 cordovaContext).
    split; [done|]. split; [apply debug_path_cached | right; by exists e].
Qed.

(** C4, as amended: [generateEntitlements] is idempotent when [plist.parse]
    gives back the documents the first run serialises.  After a first run with
    the hosts [H], however it ended, a second run with [H] ends the same way
    and leaves every file, the two target files among them, with the content
    the first run left. *)
Theorem generate_idempotent cordovaContext cordovaContext' pluginPreferences v fs r1 st1 :
  let v0 := set_context cordovaContext v in
  let pd := debug_path v0 cordovaContext in
  let pr := release_path v0 cordovaContext in
  (∀ p document, p = pd ∨ p = pr →
     document_at fs p = Returned document →
     round_trips plist (injectPreferences_value document pluginPreferences)) →
  generateEntitlements cordovaContext pluginPreferences {| vars := v; disk := fs |}
  = (r1, st1) →
  ∃ st2,
    generateEntitlements cordovaContext' pluginPreferences st1 = (r1, st2)
    ∧ disk st2 = disk st1
    ∧ file_content (disk st2) pd = file_content (disk st1) pd
    ∧ file_content (disk st2) pr = file_content (disk st1) pr.
Proof.
  intros v0 pd pr Hrt Hrun.
  destruct (generateEntitlements_disk cordovaContext pluginPreferences v fs)
    as (v1 & E1 & Hd1 & Hr1).
  fold v0 pd pr in E1, Hd1, Hr1. rewrite Hrun in E1.
  destruct (disk_run plist path pd pr pluginPreferences fs) as [r fs1] eqn:Efirst.
  cbn in E1. injection E1 as -> ->.
  destruct (generateEntitlements_disk cordovaContext' pluginPreferences v1 fs1)
    as (v2 & E2 & _ & _).
  destruct (set_context_paths cordovaContext' v1) as (Hd & Hr & _).
  rewrite Hd1 in Hd.
  destruct (debug_path_of_cached _ _ cordovaContext' Hd) as [Hpd _].
  rewrite Hpd in E2.
  assert (disk_run plist path pd
            (release_path (set_context cordovaContext' v1) cordovaContext')
            pluginPreferences fs1 = (r, fs1)) as Esecond.
  { destruct Hr1 as [Hr1|[e He]].
    - rewrite Hr1 in Hr.
      destruct (release_path_of_cached _ _ cordovaContext' Hr) as [-> _].
      by apply disk_run_again with (fs := fs).
    - unfold disk_run in Efirst |- *. rewrite He in Efirst.
      injection Efirst as <- <-. by rewrite He. }
  rewrite Esecond in E2. cbn in E2.
  eexists. split; [exact E2|]. done.
Qed.

(** *** Cached paths *)

(** A run touches no file besides the two whose paths it resolved. *)
Lemma disk_run_frame pd pr pluginPreferences fs r fs' p :
  disk_run plist path pd pr pluginPreferences fs = (r, fs') →
  p ≠ pd → p ≠ pr → file_content fs' p = file_content fs p.
Proof.
  unfold disk_run, file_content. intros Hrun Hd Hr.
  destruct (document_at fs pd) as [currentDebug|e]; [|by injection Hrun as <- <-].
  destruct (document_at fs pr) as [currentRelease|e]; [|by injection Hrun as <- <-].
  rewrite save_files_cases in Hrun.
  repeat case_decide; injection Hrun as <- <-; cbn;
    by rewrite ?lookup_insert_ne by done.
Qed.

(** C9: the project name and the two paths are memoised in the module
    variables.  After a first call from a freshly loaded module that got to
    look both paths up, the variables hold the values computed from the first
    context; a later call under any other context finds them unchanged, its
    lookups answer them, and it reads and writes the files of the first call
    and no other. *)
Theorem paths_are_memoized cordovaContext1 pluginPreferences1 fs currentDebug r1 st1
    cordovaContext2 pluginPreferences2 r2 st2 :
  let n1 := config_name cordovaContext1 in
  let pd1 := path_join path [opts_projectRoot cordovaContext1; "platforms"; "ios"; n1;
                             "Entitlements-Debug.plist"] in
  let pr1 := path_join path [opts_projectRoot cordovaContext1; "platforms"; "ios"; n1;
                             "Entitlements-Release.plist"] in
  document_at fs pd1 = Returned currentDebug →
  generateEntitlements cordovaContext1 pluginPreferences1
    {| vars := fresh_vars; disk := fs |} = (r1, st1) →
  generateEntitlements cordovaContext2 pluginPreferences2 st1 = (r2, st2) →
  (projectName (vars st1) = Some n1
   ∧ debugEntitlementsFilePath (vars st1) = Some pd1
   ∧ releaseEntitlementsFilePath (vars st1) = Some pr1)
  ∧ (projectName (vars st2) = Some n1
     ∧ debugEntitlementsFilePath (vars st2) = Some pd1
     ∧ releaseEntitlementsFilePath (vars st2) = Some pr1)
  ∧ (getProjectName st2 = (Returned n1, st2)
     ∧ pathToDebugEntitlementsFile path st2 = (Returned pd1, st2)
     ∧ pathToReleaseEntitlementsFile path st2 = (Returned pr1, st2))
  ∧ disk_run plist path pd1 pr1 pluginPreferences2 (disk st1) = (r2, disk st2)
  ∧ ∀ p, p ≠ pd1 → p ≠ pr1 → file_content (disk st2) p = file_content (disk st1) p.
Proof.
  intros n1 pd1 pr1 Hdoc Hrun1 Hrun2.
  set (v1 := {| context := Some cordovaContext1; projectRoot := None;
                projectName := Some n1;
                debugEntitlementsFilePath := Some pd1;
                releaseEntitlementsFilePath := Some pr1 |}).
  assert (∃ fs1, st1 = {| vars := v1; disk := fs1 |}) as [fs1 ->].
  { rewrite generateEntitlements_run in Hrun1.
    change (debug_path (set_context cordovaContext1 fresh_vars) cordovaContext1)
      with pd1 in Hrun1.
    change (release_path (set_context cordovaContext1 fresh_vars) cordovaContext1)
      with pr1 in Hrun1.
    rewrite Hdoc in Hrun1.
    change (settled fresh_vars cordovaContext1) with v1 in Hrun1.
    destruct (document_at fs pr1) as [currentRelease|e].
    - destruct (save_files _ _ _ _ _) as [r fs1]. injection Hrun1 as <- <-. eauto.
    - injection Hrun1 as <- <-. eauto. }
  set (v2 := set_context cordovaContext2 v1).
  assert (st2 = {| vars := v2; disk := disk st2 |}
          ∧ disk_run plist path pd1 pr1 pluginPreferences2 fs1 = (r2, disk st2))
    as [E2 Hdisk].
  { rewrite generateEntitlements_run in Hrun2.
    change (debug_path (set_context cordovaContext2 v1) cordovaContext2)
      with pd1 in Hrun2.
    change (release_path (set_context cordovaContext2 v1) cordovaContext2)
      with pr1 in Hrun2.
    change (cache_debug (set_context cordovaContext2 v1) cordovaContext2)
      with v2 in Hrun2.
    change (settled v1 cordovaContext2) with v2 in Hrun2.
    unfold disk_run.
    destruct (document_at fs1 pd1) as [d|e]; [|by injection Hrun2 as <- <-].
    destruct (document_at fs1 pr1) as [r|e]; [|by injection Hrun2 as <- <-].
    destruct (save_files _ _ _ _ _) as [r' fs2]. by injection Hrun2 as <- <-. }
  rewrite E2. cbn [vars disk].
  split; [done|]. split; [done|]. split; [done|]. split; [done|].
  intros p Hd Hr. by apply (disk_run_frame _ _ _ _ _ _ _ Hdisk).
Qed.

(** ** Further properties of the list and of the merge *)

Lemma generateAssociatedDomainsContent_eq (pluginPreferences : PluginPreferences) :
  generateAssociatedDomainsContent pluginPreferences
  = first_occurrences (domainsListEntryForHost <$> hosts pluginPreferences).
Proof.
  unfold generateAssociatedDomainsContent. rewrite fold_add_host_link. cbn [app].
  apply filter_not_in_nil.
Qed.

Lemma first_occurrences_length (l : list string) :
  (List.length (first_occurrences l) ≤ List.length l)%nat.
Proof.
  induction l as [|x l IH]; cbn [first_occurrences List.length]; [done|].
  pose proof (length_filter (λ y, y ≠ x) (first_occurrences l)). lia.
Qed.

Lemma filter_absent (x : string) (l : list string) :
  x ∉ l → filter (λ y, y ≠ x) l = l.
Proof.
  induction l as [|y l IH]; [done|]. intros Hx.
  apply not_elem_of_cons in Hx as [Hne Hx].
  rewrite filter_cons_True by done. by rewrite IH.
Qed.

Lemma first_occurrences_fixed (l : list string) :
  first_occurrences l = l ↔ NoDup l.
Proof.
  split.
  - intros <-. apply first_occurrences_NoDup.
  - induction 1 as [|x l Hx Hl IH]; cbn [first_occurrences]; [done|].
    rewrite IH. by rewrite filter_absent.
Qed.

Lemma entries_of_names (l : list Host) :
  domainsListEntryForHost <$> l = (λ n, "applinks:" +:+ n) <$> (name <$> l).
Proof. by rewrite <- list_fmap_compose. Qed.

(** X1: the generated list holds no string twice, holds the entry of every
    host and nothing else, and is never longer than the list of hosts. *)
Theorem generated_list_sound_complete (pluginPreferences : PluginPreferences) :
  NoDup (generateAssociatedDomainsContent pluginPreferences)
  ∧ (∀ link,
       link ∈ generateAssociatedDomainsContent pluginPreferences
       ↔ ∃ host, host ∈ hosts pluginPreferences ∧ link = domainsListEntryForHost host)
  ∧ (List.length (generateAssociatedDomainsContent pluginPreferences)
     ≤ List.length (hosts pluginPreferences))%nat.
Proof.
  rewrite generateAssociatedDomainsContent_eq. split; [|split].
  - apply first_occurrences_NoDup.
  - intros link. rewrite first_occurrences_elem_of, list_elem_of_fmap.
    split; intros (host & H1 & H2); exists host; done.
  - etrans; [apply first_occurrences_length|]. by rewrite length_fmap.
Qed.

(** X2: no host is dropped exactly when the names of the hosts are pairwise
    different; the list is then the entry of each host, in the order of the
    hosts. *)
Theorem every_host_kept_iff_names_distinct (pluginPreferences : PluginPreferences) :
  generateAssociatedDomainsContent pluginPreferences
  = domainsListEntryForHost <$> hosts pluginPreferences
  ↔ NoDup (name <$> hosts pluginPreferences).
Proof.
  rewrite generateAssociatedDomainsContent_eq, first_occurrences_fixed.
  rewrite entries_of_names. split.
  - apply NoDup_fmap_1.
  - apply NoDup_fmap_2. apply _.
Qed.

(** X3: the list of a concatenation of host lists is the list of the first
    part followed by those entries of the list of the second part that the
    first part does not give. *)
Theorem generated_list_app (first second : list Host) :
  generateAssociatedDomainsContent {| hosts := first ++ second |}
  = generateAssociatedDomainsContent {| hosts := first |}
    ++ filter (λ link, link ∉ generateAssociatedDomainsContent {| hosts := first |})
         (generateAssociatedDomainsContent {| hosts := second |}).
Proof.
  rewrite (generateAssociatedDomainsContent_eq {| hosts := second |}).
  unfold generateAssociatedDomainsContent. cbn [hosts].
  rewrite fold_left_app. apply fold_add_host_link.
Qed.

Lemma js_keys_set_present key value (obj : Entitlements) :
  key ∈ js_keys obj → js_keys (js_set key value obj) = js_keys obj.
Proof.
  unfold js_keys. induction obj as [|[k v] rest IH]; cbn [js_set fmap list_fmap fst].
  - intros H. by apply elem_of_nil in H.
  - intros H. destruct (decide (k = key)) as [->|Hne]; [done|].
    cbn [fmap list_fmap fst]. f_equal. apply IH.
    apply elem_of_cons in H as [->|H]; done.
Qed.

Lemma js_keys_set_absent key value (obj : Entitlements) :
  key ∉ js_keys obj → js_keys (js_set key value obj) = js_keys obj ++ [key].
Proof.
  unfold js_keys. induction obj as [|[k v] rest IH]; cbn [js_set fmap list_fmap fst].
  - done.
  - intros H. apply not_elem_of_cons in H as [Hne H].
    rewrite decide_False by done. cbn [fmap list_fmap fst app]. f_equal. by apply IH.
Qed.

(** X4: merging keeps the keys of the document in their order: the key
    [com.apple.developer.associated-domains] stays where it is when the
    document has it, and is added after all other keys when it has not.  A
    document without repeated keys stays one. *)
Theorem injectPreferences_keys (current : Entitlements)
    (pluginPreferences : PluginPreferences) :
  js_keys (injectPreferences current pluginPreferences)
  = (if decide (ASSOCIATED_DOMAINS ∈ js_keys current) then js_keys current
     else js_keys current ++ [ASSOCIATED_DOMAINS])
  ∧ (NoDup (js_keys current) →
     NoDup (js_keys (injectPreferences current pluginPreferences))).
Proof.
  unfold injectPreferences. cbn zeta.
  destruct (decide (ASSOCIATED_DOMAINS ∈ js_keys current)) as [Hin|Hnin].
  - rewrite js_keys_set_present by done. done.
  - rewrite js_keys_set_absent by done. split; [done|].
    intros Hnd. apply NoDup_app. split; [done|]. split.
    + intros k Hk Hk'. apply list_elem_of_singleton in Hk' as ->. done.
    + apply NoDup_singleton.
Qed.

(** ** Further properties of a run *)

Lemma generateEntitlements_outcome cordovaContext pluginPreferences v fs :
  let v0 := set_context cordovaContext v in
  let pd := debug_path v0 cordovaContext in
  let pr := release_path v0 cordovaContext in
  (generateEntitlements cordovaContext pluginPreferences {| vars := v; disk := fs |}).1
  = (disk_run plist path pd pr pluginPreferences fs).1
  ∧ disk (generateEntitlements cordovaContext pluginPreferences
            {| vars := v; disk := fs |}).2
    = (disk_run plist path pd pr pluginPreferences fs).2.
Proof.
  intros v0 pd pr.
  destruct (generateEntitlements_disk cordovaContext pluginPreferences v fs)
    as (v' & E & _). fold v0 pd pr in E. by rewrite E.
Qed.

Lemma disk_run_keeps pd pr pluginPreferences fs :
  let fs' := (disk_run plist path pd pr pluginPreferences fs).2 in
  dirs fs ⊆ dirs fs'
  ∧ (∀ p, p ≠ pd → p ≠ pr → file_content fs' p = file_content fs p)
  ∧ (∀ p, is_Some (file_content fs p) → is_Some (file_content fs' p)).
Proof.
  cbn zeta. unfold disk_run, file_content.
  destruct (document_at fs pd) as [currentDebug|e]; [|done].
  destruct (document_at fs pr) as [currentRelease|e]; [|done].
  rewrite save_files_cases. cbn zeta.
  set (dd := path_dirname path pd). set (dr := path_dirname path pr).
  assert (dirs fs ⊆ dirs (add_dir dr (add_dir dd fs))) as Hmono
    by (etrans; apply add_dir_mono).
  repeat case_decide; cbn [snd]; (split; [done || apply add_dir_mono|]); split.
  all: try done.
  all: try (intros p Hd Hr; cbn; by rewrite ?lookup_insert_ne by done).
  all: intros p Hp; cbn; rewrite ?lookup_insert; repeat case_decide; by eauto.
Qed.

(** X5: whatever its outcome, a run changes no file other than the two
    target files, removes no file and removes no directory. *)
Theorem generate_frame cordovaContext pluginPreferences v fs :
  let v0 := set_context cordovaContext v in
  let pd := debug_path v0 cordovaContext in
  let pr := release_path v0 cordovaContext in
  let after :=
    disk (generateEntitlements cordovaContext pluginPreferences
            {| vars := v; disk := fs |}).2 in
  (∀ p, p ≠ pd → p ≠ pr → file_content after p = file_content fs p)
  ∧ (∀ p, is_Some (file_content fs p) → is_Some (file_content after p))
  ∧ dirs fs ⊆ dirs after.
Proof.
  intros v0 pd pr after.
  destruct (generateEntitlements_outcome cordovaContext pluginPreferences v fs)
    as [_ E]. fold v0 pd pr in E. unfold after. rewrite E.
  destruct (disk_run_keeps pd pr pluginPreferences fs) as (H1 & H2 & H3).
  done.
Qed.

Lemma document_at_thrown fs p e :
  document_at fs p = Thrown e →
  ∃ content,
    e = PlistError content
    ∧ fs_readFile p fs = Returned content
    ∧ plist_parse plist content = None.
Proof.
  unfold document_at. destruct (fs_readFile p fs) as [content|]; [|done].
  destruct (plist_parse plist content) eqn:Ep; [done|].
  intros [= <-]. eauto.
Qed.

(** X8: the read step of either file swallows every error of the file
    system.  With the context set, it answers the empty document whenever the
    file cannot be read, whatever the error; it never throws a file-system
    error; and it leaves the file system as it was. *)
Theorem read_step_swallows_fs_errors cordovaContext v fs :
  context v = Some cordovaContext →
  let readDebug :=
    getDebugEntitlementsFileContent plist path {| vars := v; disk := fs |} in
  let readRelease :=
    getReleaseEntitlementsFileContent plist path {| vars := v; disk := fs |} in
  (∀ e, fs_readFile (debug_path v cordovaContext) fs = Thrown e →
        readDebug.1 = Returned (PDict defaultEntitlementsFile))
  ∧ (∀ e, fs_readFile (release_path v cordovaContext) fs = Thrown e →
          readRelease.1 = Returned (PDict defaultEntitlementsFile))
  ∧ (∀ code p, readDebug.1 ≠ Thrown (FsError code p)
               ∧ readRelease.1 ≠ Thrown (FsError code p))
  ∧ disk readDebug.2 = fs
  ∧ disk readRelease.2 = fs.
Proof.
  intros Hc readDebug readRelease. unfold readDebug, readRelease.
  rewrite (getDebugEntitlementsFileContent_run _ _ _ Hc).
  rewrite (getReleaseEntitlementsFileContent_run _ _ _ Hc). cbn [fst snd disk].
  split; [|split; [|split; [|done]]].
  - intros e He. by apply document_at_unreadable with (e := e).
  - intros e He. by apply document_at_unreadable with (e := e).
  - intros code p. split; intros H;
      apply document_at_thrown in H as (c & Hc' & _); discriminate.
Qed.

(** X9: the two files are not written as one step.  When only the release
    file is refused, the run throws that refusal after it has written the
    debug file, which keeps its new content; the release file is as it
    was. *)
Theorem release_refused_after_debug_written cordovaContext pluginPreferences v fs
    currentDebug currentRelease :
  let v0 := set_context cordovaContext v in
  let pd := debug_path v0 cordovaContext in
  let pr := release_path v0 cordovaContext in
  let run :=
    generateEntitlements cordovaContext pluginPreferences {| vars := v; disk := fs |} in
  document_at fs pd = Returned currentDebug →
  document_at fs pr = Returned currentRelease →
  Forall (λ d, d ∉ refused_mkdir fs) [path_dirname path pd; path_dirname path pr] →
  pd ∉ refused_write fs →
  pr ∈ refused_write fs →
  run.1 = Thrown (FsError "EACCES" pr)
  ∧ file_content (disk run.2) pd
    = Some (plist_build plist (injectPreferences_value currentDebug pluginPreferences))
  ∧ file_content (disk run.2) pr = file_content fs pr.
Proof.
  intros v0 pd pr run Hd Hr Hok Hpd Hpr.
  apply Forall_cons in Hok as [Hdd Hok]. apply Forall_cons in Hok as [Hdr _].
  assert (pd ≠ pr) as Hne by (intros E; apply Hpd; by rewrite E).
  destruct (generateEntitlements_outcome cordovaContext pluginPreferences v fs)
    as [E1 E2]. fold v0 pd pr run in E1, E2. rewrite E1, E2.
  unfold disk_run. rewrite Hd, Hr, save_files_cases. cbn zeta.
  rewrite (decide_False (P := path_dirname path pd ∈ refused_mkdir fs)) by done.
  rewrite (decide_False (P := path_dirname path pr ∈ refused_mkdir fs)) by done.
  rewrite (decide_False (P := pd ∈ refused_write fs)) by done.
  rewrite (decide_True (P := pr ∈ refused_write fs)) by done.
  unfold file_content. cbn. split; [done|]. split.
  - apply lookup_insert_eq.
  - by rewrite lookup_insert_ne.
Qed.

(** X10: through a run that returns, a target file whose starting document
    is a dictionary keeps the other keys of that document: the release file,
    and the debug file when it is another file, holds the serialisation of a
    dictionary that agrees with the starting one on every other key and
    carries the new list under [com.apple.developer.associated-domains]. *)
Theorem other_keys_survive_run cordovaContext pluginPreferences v fs st' :
  let v0 := set_context cordovaContext v in
  let pd := debug_path v0 cordovaContext in
  let pr := release_path v0 cordovaContext in
  let kept (starting : plist_value) (text : option string) :=
    ∀ before, starting = PDict before →
      ∃ after : Entitlements,
        text = Some (plist_build plist (PDict after))
        ∧ (∀ key, key ≠ ASSOCIATED_DOMAINS → js_get key after = js_get key before)
        ∧ js_get ASSOCIATED_DOMAINS after
          = Some (domains_value (generateAssociatedDomainsContent pluginPreferences)) in
  generateEntitlements cordovaContext pluginPreferences {| vars := v; disk := fs |}
  = (Returned tt, st') →
  ∃ currentDebug currentRelease,
    document_at fs pd = Returned currentDebug
    ∧ document_at fs pr = Returned currentRelease
    ∧ kept currentRelease (file_content (disk st') pr)
    ∧ (pd ≠ pr → kept currentDebug (file_content (disk st') pd)).
Proof.
  intros v0 pd pr kept Hrun.
  apply generateEntitlements_returned in Hrun as (d & r & Hd & Hr & _ & ->).
  fold v0 pd pr in Hd, Hr |- *. exists d, r. split; [done|]. split; [done|].
  unfold kept, file_content. cbn [disk files put_file]. split.
  - intros before ->. exists (injectPreferences before pluginPreferences).
    rewrite lookup_insert_eq. split; [done|]. unfold injectPreferences. cbn zeta.
    split; [|apply js_get_set_eq]. intros key Hkey. by apply js_get_set_ne.
  - intros Hne before ->. exists (injectPreferences before pluginPreferences).
    rewrite lookup_insert_ne by done. rewrite lookup_insert_eq.
    split; [done|]. unfold injectPreferences. cbn zeta.
    split; [|apply js_get_set_eq]. intros key Hkey. by apply js_get_set_ne.
Qed.

(** Once both paths are cached, a call under any context resolves them to the
    cached values. *)
Lemma settled_paths_again v ctx ctx' :
  debug_path (set_context ctx' (settled v ctx)) ctx' = debug_path (set_context ctx v) ctx
  ∧ release_path (set_context ctx' (settled v ctx)) ctx'
    = release_path (set_context ctx v) ctx.
Proof.
  destruct (set_context_paths ctx' (settled v ctx)) as (Hd & Hr & _).
  rewrite settled_debug in Hd. rewrite settled_release in Hr.
  split.
  - by destruct (debug_path_of_cached _ _ ctx' Hd).
  - by destruct (release_path_of_cached _ _ ctx' Hr).
Qed.

(** X11: a later list of hosts replaces an earlier one.  When a run with
    the hosts [earlier] and then a run with the hosts [later] both return, the
    file system is the one a single run with [later] gives from the same
    start, which returns too; the parser is assumed to give back the
    documents the first run serialises. *)
Theorem later_hosts_replace_earlier cordovaContext earlier later v fs st1 st2 :
  let v0 := set_context cordovaContext v in
  let pd := debug_path v0 cordovaContext in
  let pr := release_path v0 cordovaContext in
  (∀ p document, p = pd ∨ p = pr →
     document_at fs p = Returned document →
     round_trips plist (injectPreferences_value document earlier)) →
  generateEntitlements cordovaContext earlier {| vars := v; disk := fs |}
  = (Returned tt, st1) →
  generateEntitlements cordovaContext later st1 = (Returned tt, st2) →
  ∃ st2',
    generateEntitlements cordovaContext later {| vars := v; disk := fs |}
    = (Returned tt, st2')
    ∧ disk st2' = disk st2.
Proof.
  intros v0 pd pr Hrt Hrun1 Hrun2.
  apply generateEntitlements_returned in Hrun1 as (d & r & Hd & Hr & Hok & ->).
  apply generateEntitlements_returned in Hrun2 as (d' & r' & Hd' & Hr' & _ & ->).
  destruct (settled_paths_again v cordovaContext cordovaContext) as [Epd Epr].
  rewrite Epd in Hd'. rewrite Epr in Hr'. rewrite ?Epd, ?Epr.
  fold v0 pd pr in Hd, Hr, Hok, Hd', Hr' |- *.
  set (dd := path_dirname path pd) in *. set (dr := path_dirname path pr) in *.
  set (cd := plist_build plist (injectPreferences_value d earlier)) in *.
  set (cr := plist_build plist (injectPreferences_value r earlier)) in *.
  set (fs1 := put_file pr cr (put_file pd cd (add_dir dr (add_dir dd fs)))) in *.
  destruct (dirs_after_mkpaths dd dr fs) as [Hdd_in Hdr_in].
  destruct (reread_written fs fs1 pr r earlier)
    as (rereadRelease & Err & HsameR);
    [done|done|by apply (Hrt pr r); [right|]|apply lookup_insert_eq|].
  rewrite Err in Hr'. injection Hr' as <-.
  assert (plist_build plist (injectPreferences_value d' later)
          = if decide (pd = pr)
            then plist_build plist (injectPreferences_value r later)
            else plist_build plist (injectPreferences_value d later)) as Ed'.
  { destruct (decide (pd = pr)) as [E|Hne].
    - rewrite E, Err in Hd'. injection Hd' as <-. by rewrite HsameR.
    - destruct (reread_written fs fs1 pd d earlier)
        as (reread & Hre & Hsame);
        [done|done|by apply (Hrt pd d); [left|]| |].
      { unfold fs1. cbn. rewrite lookup_insert_ne by done. apply lookup_insert_eq. }
      rewrite Hre in Hd'. injection Hd' as <-. by rewrite Hsame. }
  rewrite generateEntitlements_run. fold v0 pd pr. rewrite Hd, Hr.
  rewrite (save_files_returns _ _ _ _ _ Hok). fold dd dr.
  eexists. split; [done|]. cbn [disk].
  rewrite Ed', HsameR.
  rewrite (add_dir_again dd fs1) by done.
  rewrite (add_dir_again dr fs1) by done.
  unfold fs1, put_file. cbn. f_equal.
  apply map_eq. intros k. rewrite !lookup_insert.
  destruct (decide (pr = k)); [done|].
  destruct (decide (pd = k)) as [->|]; [|done].
  by rewrite decide_False by (by intros ->).
Qed.

(** X12: the project name is cached, the project root is not.  A first call
    from a freshly loaded module that stops at a malformed debug file has
    cached the project name and the debug path, not the release path; when a
    later call under another context gets to look the release path up, it is
    built from the root of the later context and the name of the first. *)
Theorem release_path_mixes_contexts cordovaContext1 pluginPreferences1 fs content
    cordovaContext2 pluginPreferences2 fs' currentDebug :
  let n1 := config_name cordovaContext1 in
  let pd1 := path_join path [opts_projectRoot cordovaContext1; "platforms"; "ios"; n1;
                             "Entitlements-Debug.plist"] in
  let st1 :=
    (generateEntitlements cordovaContext1 pluginPreferences1
       {| vars := fresh_vars; disk := fs |}).2 in
  let st2 :=
    (generateEntitlements cordovaContext2 pluginPreferences2
       {| vars := vars st1; disk := fs' |}).2 in
  fs_readFile pd1 fs = Returned content →
  plist_parse plist content = None →
  document_at fs' pd1 = Returned currentDebug →
  (projectName (vars st1) = Some n1
   ∧ debugEntitlementsFilePath (vars st1) = Some pd1
   ∧ releaseEntitlementsFilePath (vars st1) = None)
  ∧ debugEntitlementsFilePath (vars st2) = Some pd1
  ∧ releaseEntitlementsFilePath (vars st2)
    = Some (path_join path [opts_projectRoot cordovaContext2; "platforms"; "ios"; n1;
                            "Entitlements-Release.plist"]).
Proof.
  intros n1 pd1 st1 st2 Hread Hbad Hdoc.
  set (v1 := {| context := Some cordovaContext1; projectRoot := None;
                projectName := Some n1;
                debugEntitlementsFilePath := Some pd1;
                releaseEntitlementsFilePath := None |}).
  assert (st1 = {| vars := v1; disk := fs |}) as E1.
  { unfold st1. rewrite generateEntitlements_run.
    change (debug_path (set_context cordovaContext1 fresh_vars) cordovaContext1)
      with pd1.
    by rewrite (document_at_malformed _ _ _ Hread Hbad). }
  split; [by rewrite E1|].
  unfold st2. rewrite E1. cbn [vars]. rewrite generateEntitlements_run.
  change (debug_path (set_context cordovaContext2 v1) cordovaContext2) with pd1.
  rewrite Hdoc.
  destruct (document_at fs' (release_path _ _)) as [currentRelease|e]; [|done].
  by destruct (save_files _ _ _ _ _).
Qed.

(** X13: a run that returns has created the directories of both target
    files, whether or not they existed before. *)
Theorem directories_created cordovaContext pluginPreferences v fs st' :
  let v0 := set_context cordovaContext v in
  let pd := debug_path v0 cordovaContext in
  let pr := release_path v0 cordovaContext in
  generateEntitlements cordovaContext pluginPreferences {| vars := v; disk := fs |}
  = (Returned tt, st') →
  path_dirname path pd ∈ dirs (disk st')
  ∧ path_dirname path pr ∈ dirs (disk st')
  ∧ is_Some (file_content (disk st') pd)
  ∧ is_Some (file_content (disk st') pr).
Proof.
  intros v0 pd pr Hrun.
  apply generateEntitlements_returned in Hrun as (d & r & _ & _ & _ & ->).
  fold v0 pd pr. unfold file_content. cbn [disk].
  destruct (dirs_after_mkpaths (path_dirname path pd) (path_dirname path pr) fs)
    as [H1 H2].
  split; [exact H1|]. split; [exact H2|]. cbn [files put_file]. split.
  - rewrite lookup_insert. case_decide; [by eauto|].
    rewrite lookup_insert_eq. by eauto.
  - rewrite lookup_insert_eq. by eauto.
Qed.

(** X14: a target file whose property list has a top-level value that is
    not a dictionary is not given the key: in a run that returns, the
    release file, and the debug file when it is another file, is written
    back as the serialisation of the very value that was read. *)
Theorem other_roots_written_back cordovaContext pluginPreferences v fs st' :
  let v0 := set_context cordovaContext v in
  let pd := debug_path v0 cordovaContext in
  let pr := release_path v0 cordovaContext in
  let written_back (starting : plist_value) (text : option string) :=
    (∀ entries, starting ≠ PDict entries) → text = Some (plist_build plist starting) in
  generateEntitlements cordovaContext pluginPreferences {| vars := v; disk := fs |}
  = (Returned tt, st') →
  ∃ currentDebug currentRelease,
    document_at fs pd = Returned currentDebug
    ∧ document_at fs pr = Returned currentRelease
    ∧ written_back currentRelease (file_content (disk st') pr)
    ∧ (pd ≠ pr → written_back currentDebug (file_content (disk st') pd)).
Proof.
  intros v0 pd pr written_back Hrun.
  apply generateEntitlements_returned in Hrun as (d & r & Hd & Hr & _ & ->).
  fold v0 pd pr in Hd, Hr |- *. exists d, r. split; [done|]. split; [done|].
  unfold written_back, file_content. cbn [disk files put_file].
  assert (∀ root : plist_value,
            (∀ entries, root ≠ PDict entries) →
            injectPreferences_value root pluginPreferences = root) as Hsame.
  { intros root Hroot. destruct root; try done. by destruct (Hroot entries). }
  split.
  - intros Hroot. rewrite lookup_insert_eq. by rewrite Hsame.
  - intros Hne Hroot. rewrite lookup_insert_ne by done. rewrite lookup_insert_eq.
    by rewrite Hsame.
Qed.

End Run.

(** ** The statements at the sample project *)

(** C2, as the specification has it, fails: the debug file of
    [Sample.malformed] can be read and is no property list, yet the read step
    does not answer the empty document, and the run ends with the parse error
    and the file as it was. *)
Lemma malformed_file_not_replaced :
  fs_readFile Sample.debugFile (disk Sample.malformed) = Returned "not a property list"
  ∧ plist_parse Sample.plist "not a property list" = None
  ∧ (getDebugEntitlementsFileContent Sample.plist Sample.path
       {| vars := set_context Sample.ctx fresh_vars; disk := disk Sample.malformed |}).1
    ≠ Returned (PDict defaultEntitlementsFile)
  ∧ (generateEntitlements Sample.plist Sample.path Sample.ctx Sample.prefs
       Sample.malformed).1
    = Thrown (PlistError "not a property list")
  ∧ file_content
      (disk (generateEntitlements Sample.plist Sample.path Sample.ctx Sample.prefs
               Sample.malformed).2)
      Sample.debugFile
    = Some "not a property list".
Proof.
  repeat split; try (vm_compute; reflexivity).
  vm_compute. discriminate.
Qed.

Lemma malformed_file_is_fatal_witness :
  plist_parse Sample.plist "not a property list" = None
  ∧ ∃ bad v',
      plist_parse Sample.plist bad = None
      ∧ generateEntitlements Sample.plist Sample.path Sample.ctx Sample.prefs
          Sample.malformed
        = (Thrown (PlistError bad), {| vars := v'; disk := disk Sample.malformed |}).
Proof.
  split; [reflexivity|].
  apply (malformed_file_is_fatal Sample.plist Sample.path Sample.ctx Sample.prefs
           fresh_vars (disk Sample.malformed) "not a property list");
    [reflexivity | left; vm_compute; reflexivity].
Defined.

(** At [Sample.locked] the write of the release file is refused: the run
    throws that error after the debug file has been written. *)
Lemma file_system_errors_propagate_witness :
  (generateEntitlements Sample.plist Sample.path Sample.ctx Sample.prefs Sample.locked).1
  = Thrown (FsError "EACCES" Sample.releaseFile)
  ∧ file_content
      (disk (generateEntitlements Sample.plist Sample.path Sample.ctx Sample.prefs
               Sample.locked).2)
      Sample.debugFile
    = Some (Sample.build (injectPreferences [] Sample.prefs)).
Proof.
  pose proof (file_system_errors_propagate Sample.plist Sample.path Sample.ctx
                Sample.prefs fresh_vars (disk Sample.locked) (PDict []) (PDict [])
                (FsError "EACCES" Sample.releaseFile)
                ltac:(vm_compute; reflexivity) ltac:(vm_compute; reflexivity))
    as (_ & _ & _ & H).
  change Sample.locked with {| vars := fresh_vars; disk := disk Sample.locked |}.
  rewrite (H _ _ _ _ eq_refl eq_refl eq_refl eq_refl).
  split; vm_compute; reflexivity.
Defined.

Lemma missing_files_are_created_witness :
  ∃ st',
    generateEntitlements Sample.plist Sample.path Sample.ctx Sample.prefs Sample.fresh
    = (Returned tt, st')
    ∧ file_content (disk st') Sample.debugFile
      = Some (Sample.build (injectPreferences [] Sample.prefs))
    ∧ file_content (disk st') Sample.releaseFile
      = Some (Sample.build (injectPreferences [] Sample.prefs))
    ∧ js_keys (injectPreferences [] Sample.prefs) = [ASSOCIATED_DOMAINS].
Proof.
  apply (missing_files_are_created Sample.plist Sample.path Sample.ctx Sample.prefs
           fresh_vars Sample.empty_disk);
    [reflexivity | reflexivity | repeat split; apply not_elem_of_empty].
Defined.

(** C4, as the specification has it, fails.  The debug file of
    [Sample.big_number] holds the number [10^21]; the first run writes it as
    [1e+21], which the second run reads as [1] and writes as [1]: both runs
    return, and the second leaves the debug file with another content than
    the first. *)
Lemma second_run_rewrites_number :
  let first :=
    generateEntitlements Sample.plist Sample.path Sample.ctx Sample.prefs
      Sample.big_number in
  let second :=
    generateEntitlements Sample.plist Sample.path Sample.ctx Sample.prefs first.2 in
  first.1 = Returned tt
  ∧ second.1 = Returned tt
  ∧ file_content (disk first.2) Sample.debugFile
    = Some (Sample.build
              [("build", PInteger (10 ^ 21));
               (ASSOCIATED_DOMAINS,
                PArray [PString "applinks:a.com"; PString "applinks:b.com"])])
  ∧ file_content (disk second.2) Sample.debugFile
    = Some (Sample.build
              [("build", PInteger 1);
               (ASSOCIATED_DOMAINS,
                PArray [PString "applinks:a.com"; PString "applinks:b.com"])])
  ∧ file_content (disk second.2) Sample.debugFile
    ≠ file_content (disk first.2) Sample.debugFile.
Proof.
  cbv zeta. repeat split; try (vm_compute; reflexivity).
  vm_compute. discriminate.
Qed.

(** At [Sample.existing] the debug file holds a key of its own and an older
    list of domains; the second run changes nothing. *)
Lemma generate_idempotent_witness :
  ∃ st2,
    generateEntitlements Sample.plist Sample.path Sample.ctx Sample.prefs
      (generateEntitlements Sample.plist Sample.path Sample.ctx Sample.prefs
         Sample.existing).2
    = (Returned tt, st2)
    ∧ file_content (disk st2) Sample.debugFile
      = Some (Sample.build
                [("other-key", PString "value");
                 (ASSOCIATED_DOMAINS,
                  PArray [PString "applinks:a.com"; PString "applinks:b.com"])]).
Proof.
  destruct (generate_idempotent Sample.plist Sample.path Sample.ctx Sample.ctx
              Sample.prefs fresh_vars (disk Sample.existing) (Returned tt)
              (generateEntitlements Sample.plist Sample.path Sample.ctx Sample.prefs
                 Sample.existing).2)
    as (st2 & E & _ & Hd & _).
  - intros p document [->| ->] H; vm_compute in H; injection H as <-;
      vm_compute; reflexivity.
  - vm_compute. reflexivity.
  - exists st2. split; [exact E|].
    etrans; [exact Hd | vm_compute; reflexivity].
Defined.

(** C8, as the specification has it, fails.  Both files of
    [Sample.unreadable_debug] start with the same content, but the debug file
    cannot be read: it counts as missing, the run returns, and the two files
    end with different content. *)
Lemma unreadable_debug_file_differs :
  let run :=
    generateEntitlements Sample.plist Sample.path Sample.ctx Sample.prefs
      Sample.unreadable_debug in
  file_content (disk Sample.unreadable_debug) Sample.debugFile
  = file_content (disk Sample.unreadable_debug) Sample.releaseFile
  ∧ run.1 = Returned tt
  ∧ file_content (disk run.2) Sample.debugFile
    = Some (Sample.build (injectPreferences [] Sample.prefs))
  ∧ file_content (disk run.2) Sample.releaseFile
    = Some (Sample.build (injectPreferences Sample.older Sample.prefs))
  ∧ file_content (disk run.2) Sample.debugFile
    ≠ file_content (disk run.2) Sample.releaseFile.
Proof.
  cbv zeta. repeat split; try (vm_compute; reflexivity).
  vm_compute. discriminate.
Qed.

(** At [Sample.both_existing] both files hold a key of their own and an older
    list: both end with that key and the new list. *)
Lemma debug_and_release_alike_witness :
  let run :=
    generateEntitlements Sample.plist Sample.path Sample.ctx Sample.prefs
      Sample.both_existing in
  file_content (disk run.2) Sample.debugFile
  = Some (Sample.build
            [("other-key", PString "value");
             (ASSOCIATED_DOMAINS,
              PArray [PString "applinks:a.com"; PString "applinks:b.com"])])
  ∧ file_content (disk run.2) Sample.debugFile
    = file_content (disk run.2) Sample.releaseFile.
Proof.
  cbv zeta.
  destruct (debug_and_release_alike Sample.plist Sample.path Sample.ctx Sample.prefs
              fresh_vars (disk Sample.both_existing)
              (generateEntitlements Sample.plist Sample.path Sample.ctx Sample.prefs
                 Sample.both_existing).2)
    as (d & r & d' & r' & Hd & _ & [Hd' _] & _ & Hfile & _ & Hsame).
  - vm_compute. reflexivity.
  - split.
    + etrans; [apply Hfile; vm_compute; discriminate|].
      rewrite Hd'. vm_compute in Hd. injection Hd as <-. vm_compute. reflexivity.
    + apply Hsame. vm_compute. reflexivity.
Defined.

(** A run for [Sample.ctx2] after one for [Sample.ctx] still answers, and
    writes, the files of [Sample.ctx]; the debug file of [Sample.ctx2] is not
    created. *)
Lemma paths_are_memoized_witness :
  pathToDebugEntitlementsFile Sample.path Sample.after_second
  = (Returned Sample.debugFile, Sample.after_second)
  ∧ file_content (disk Sample.after_second) Sample.debugFile
    = Some (Sample.build
              [(ASSOCIATED_DOMAINS, PArray [PString "applinks:c.com"])])
  ∧ file_content (disk Sample.after_second) Sample.debugFile2 = None.
Proof.
  destruct (paths_are_memoized Sample.plist Sample.path Sample.ctx Sample.prefs
              Sample.empty_disk (PDict []) (Returned tt) Sample.after_first
              Sample.ctx2 Sample.prefs2 (Returned tt) Sample.after_second)
    as (_ & _ & (_ & Hlookup & _) & _ & Hframe).
  - vm_compute. reflexivity.
  - vm_compute. reflexivity.
  - vm_compute. reflexivity.
  - split; [exact Hlookup|]. split; [vm_compute; reflexivity|].
    etrans; [apply (Hframe Sample.debugFile2); vm_compute; discriminate|].
    vm_compute. reflexivity.
Defined.

(** C10, as the specification has it, fails.  Under the same context, hosts
    and empty disk, a freshly loaded module writes the debug file of
    [Sample.ctx], and a module that has cached the paths of [Sample.ctx2]
    writes the debug file of [Sample.ctx2] and not that of [Sample.ctx]. *)
Lemma cached_paths_redirect_run :
  let fresh_run :=
    generateEntitlements Sample.plist Sample.path Sample.ctx Sample.prefs
      {| vars := fresh_vars; disk := Sample.empty_disk |} in
  let cached_run :=
    generateEntitlements Sample.plist Sample.path Sample.ctx Sample.prefs
      {| vars := Sample.cached_other; disk := Sample.empty_disk |} in
  fresh_run.1 = Returned tt
  ∧ cached_run.1 = Returned tt
  ∧ file_content (disk fresh_run.2) Sample.debugFile
    = Some (Sample.build (injectPreferences [] Sample.prefs))
  ∧ file_content (disk cached_run.2) Sample.debugFile = None
  ∧ file_content (disk cached_run.2) Sample.debugFile2
    = Some (Sample.build (injectPreferences [] Sample.prefs)).
Proof. cbv zeta. repeat split; vm_compute; reflexivity. Qed.

(** A fresh module on the empty disk, and a module with cached paths on a
    disk that holds an unrelated file, write the same content. *)
Lemma generate_deterministic_witness :
  let text := Some (Sample.build (injectPreferences [] Sample.prefs)) in
  file_content (disk Sample.after_first) Sample.releaseFile = text
  ∧ file_content
      (disk (generateEntitlements Sample.plist Sample.path Sample.ctx Sample.prefs
               {| vars := vars Sample.after_first; disk := Sample.elsewhere |}).2)
      Sample.releaseFile
    = text.
Proof.
  cbv zeta.
  destruct (generate_deterministic Sample.plist Sample.path Sample.ctx Sample.prefs
              fresh_vars (vars Sample.after_first) Sample.empty_disk Sample.elsewhere
              Sample.after_first
              (generateEntitlements Sample.plist Sample.path Sample.ctx Sample.prefs
                 {| vars := vars Sample.after_first; disk := Sample.elsewhere |}).2)
    as (d & r & _ & [Hr _] & [H1 H2] & _); try (vm_compute; reflexivity).
  vm_compute in Hr. injection Hr as <-. split; [exact H1 | exact H2].
Defined.

(** At [Sample.existing] the hosts of [Sample.prefs] and then those of
    [Sample.prefs2] leave what [Sample.prefs2] alone leaves. *)
Lemma later_hosts_replace_earlier_witness :
  ∃ st2',
    generateEntitlements Sample.plist Sample.path Sample.ctx Sample.prefs2
      Sample.existing
    = (Returned tt, st2')
    ∧ disk st2'
      = disk (generateEntitlements Sample.plist Sample.path Sample.ctx Sample.prefs2
                (generateEntitlements Sample.plist Sample.path Sample.ctx Sample.prefs
                   Sample.existing).2).2.
Proof.
  apply (later_hosts_replace_earlier Sample.plist Sample.path Sample.ctx
           Sample.prefs Sample.prefs2 fresh_vars (disk Sample.existing)
           (generateEntitlements Sample.plist Sample.path Sample.ctx Sample.prefs
              Sample.existing).2).
  - intros p document [->| ->] H; vm_compute in H; injection H as <-;
      vm_compute; reflexivity.
  - vm_compute. reflexivity.
  - vm_compute. reflexivity.
Defined.

Lemma release_path_mixes_contexts_witness :
  releaseEntitlementsFilePath
    (vars (generateEntitlements Sample.plist Sample.path Sample.ctx2 Sample.prefs2
             {| vars := vars (generateEntitlements Sample.plist Sample.path Sample.ctx
                                Sample.prefs Sample.malformed).2;
                disk := Sample.empty_disk |}).2)
  = Some "/other/platforms/ios/Demo/Entitlements-Release.plist".
Proof.
  apply (release_path_mixes_contexts Sample.plist Sample.path Sample.ctx Sample.prefs
           (disk Sample.malformed) "not a property list" Sample.ctx2 Sample.prefs2
           Sample.empty_disk (PDict []));
    vm_compute; reflexivity.
Defined.

(** At [Sample.locked] the release file cannot be read: the read step
    answers the empty document. *)
Lemma read_step_swallows_fs_errors_witness :
  (getReleaseEntitlementsFileContent Sample.plist Sample.path
     {| vars := set_context Sample.ctx fresh_vars; disk := disk Sample.locked |}).1
  = Returned (PDict defaultEntitlementsFile).
Proof.
  destruct (read_step_swallows_fs_errors Sample.plist Sample.path Sample.ctx
              (set_context Sample.ctx fresh_vars) (disk Sample.locked) eq_refl)
    as (_ & H & _).
  apply (H (FsError "EACCES" Sample.releaseFile)). vm_compute. reflexivity.
Defined.

Lemma release_refused_after_debug_written_witness :
  (generateEntitlements Sample.plist Sample.path Sample.ctx Sample.prefs Sample.locked).1
  = Thrown (FsError "EACCES" Sample.releaseFile)
  ∧ file_content
      (disk (generateEntitlements Sample.plist Sample.path Sample.ctx Sample.prefs
               Sample.locked).2)
      Sample.debugFile
    = Some (Sample.build (injectPreferences [] Sample.prefs))
  ∧ file_content
      (disk (generateEntitlements Sample.plist Sample.path Sample.ctx Sample.prefs
               Sample.locked).2)
      Sample.releaseFile
    = None.
Proof.
  apply (release_refused_after_debug_written Sample.plist Sample.path Sample.ctx
           Sample.prefs fresh_vars (disk Sample.locked) (PDict []) (PDict [])).
  - vm_compute. reflexivity.
  - vm_compute. reflexivity.
  - repeat constructor; apply not_elem_of_empty.
  - vm_compute. set_solver.
  - vm_compute. set_solver.
Defined.

(** At [Sample.existing] the key [other-key] of the debug file survives. *)
Lemma other_keys_survive_run_witness :
  ∃ after : Entitlements,
    file_content
      (disk (generateEntitlements Sample.plist Sample.path Sample.ctx Sample.prefs
               Sample.existing).2)
      Sample.debugFile
    = Some (Sample.build after)
    ∧ js_get "other-key" after = Some (PString "value").
Proof.
  destruct (other_keys_survive_run Sample.plist Sample.path Sample.ctx Sample.prefs
              fresh_vars (disk Sample.existing)
              (generateEntitlements Sample.plist Sample.path Sample.ctx Sample.prefs
                 Sample.existing).2)
    as (d & r & Hd & _ & _ & H).
  - vm_compute. reflexivity.
  - vm_compute in Hd. injection Hd as <-.
    destruct (H ltac:(vm_compute; discriminate) _ eq_refl)
      as (after & Hfile & Hkeys & _).
    exists after. split; [exact Hfile|].
    rewrite Hkeys by (vm_compute; discriminate). reflexivity.
Defined.

Lemma directories_created_witness :
  "/app/platforms/ios/Demo" ∈ dirs (disk Sample.after_first)
  ∧ is_Some (file_content (disk Sample.after_first) Sample.debugFile).
Proof.
  destruct (directories_created Sample.plist Sample.path Sample.ctx Sample.prefs
              fresh_vars Sample.empty_disk Sample.after_first)
    as (H1 & _ & H2 & _).
  - vm_compute. reflexivity.
  - split; [exact H1 | exact H2].
Defined.

(** At [Sample.string_root] the debug file holds a string: it is written
    back as it was, without the key. *)
Lemma other_roots_written_back_witness :
  file_content
    (disk (generateEntitlements Sample.plist Sample.path Sample.ctx Sample.prefs
             Sample.string_root).2)
    Sample.debugFile
  = Some "<plist><string>hello</string></plist>".
Proof.
  destruct (other_roots_written_back Sample.plist Sample.path Sample.ctx Sample.prefs
              fresh_vars (disk Sample.string_root)
              (generateEntitlements Sample.plist Sample.path Sample.ctx Sample.prefs
                 Sample.string_root).2)
    as (d & r & Hd & _ & _ & H).
  - vm_compute. reflexivity.
  - vm_compute in Hd. injection Hd as <-.
    etrans; [apply H; [vm_compute; discriminate | discriminate]|].
    vm_compute. reflexivity.
Defined.
